(** * Tactical-Chatbot: the chat front end (src/App.js) and the terrain
      pipeline contracts it talks to.

    The development has JavaScript strings and numbers first, then the
    coordinate detector and the wind scale of [handleSendMessage], the
    component state with its handlers ([checkHealth], [uploadDocument],
    [handleFileUpload], [handleSendMessage]), the two inline-formatting
    regular expressions with the loop of [renderInlineFormatting], and
    finally the two back-end components (terrain cache, scenario
    detector) whose code is not part of the front end. *)

From Stdlib Require Import ZArith QArith Qround Qabs Lia Lqa String Ascii DecimalString.
From stdpp Require Import base option list gmap.

Set Default Proof Using "Type".
Local Open Scope N_scope.

(** ** JavaScript strings

    A JavaScript string is a sequence of UTF-16 code units; regular
    expressions without the [u] flag, [trim], [slice], [length] and
    [endsWith] all work on code units. *)

Abbreviation jsstring := (list N).

Module Utf8.

(** Code units of a code point (a surrogate pair above the BMP). *)
Definition units (cp : N) : list N :=
  if cp <? 65536 then [cp]
  else [55296 + (cp - 65536) / 1024; 56320 + (cp - 65536) mod 1024].

(** [go need acc bs]: [need] continuation bytes are still expected for
    the code point accumulated in [acc]. *)
Fixpoint go (need : nat) (acc : N) (bs : list N) : list N :=
  match bs with
  | [] => []
  | b :: bs' =>
      match need with
      | O =>
          if b <? 128 then b :: go 0 0 bs'
          else if b <? 224 then go 1 (N.land b 31) bs'
          else if b <? 240 then go 2 (N.land b 15) bs'
          else go 3 (N.land b 7) bs'
      | S k =>
          let acc' := acc * 64 + N.land b 63 in
          match k with
          | O => units acc' ++ go 0 0 bs'
          | S _ => go k acc' bs'
          end
      end
  end.

Definition bytes (s : string) : list N :=
  map (fun a => N_of_ascii a) (list_ascii_of_string s).

End Utf8.

(** Literal of the source file (UTF-8 in this file) as code units. *)
Definition js (s : string) : jsstring := Utf8.go 0 0 (Utf8.bytes s).
Arguments js : simpl never.

(** The double quote character. *)
Definition dquote : jsstring := [34].

Definition unit_eqb (a b : N) : bool := N.eqb a b.

(** [s.startsWith(p)] *)
Fixpoint startsWith (s p : jsstring) {struct p} : bool :=
  match p with
  | [] => true
  | a :: p' =>
      match s with
      | [] => false
      | b :: s' => unit_eqb a b && startsWith s' p'
      end
  end.

(** [s.endsWith(p)] *)
Definition endsWith (s p : jsstring) : bool :=
  startsWith (rev s) (rev p).

(** [s.includes(p)] *)
Fixpoint includes (s p : jsstring) : bool :=
  startsWith s p ||
  match s with
  | [] => false
  | _ :: s' => includes s' p
  end.

(** [arr.join(sep)] on an array of strings. *)
Fixpoint join (sep : jsstring) (xs : list jsstring) : jsstring :=
  match xs with
  | [] => []
  | [x] => x
  | x :: xs' => x ++ sep ++ join sep xs'
  end.

(** [s.repeat(n)] *)
Fixpoint repeat_str (s : jsstring) (n : nat) : jsstring :=
  match n with
  | O => []
  | S n' => s ++ repeat_str s n'
  end.

(** WhiteSpace and LineTerminator code points of ECMAScript, the set
    that [String.prototype.trim] strips. *)
Definition isLineTerminator (c : N) : bool :=
  (c =? 10) || (c =? 13) || (c =? 8232) || (c =? 8233).

Definition isWhiteSpace (c : N) : bool :=
  (c =? 9) || (c =? 11) || (c =? 12) || (c =? 32) || (c =? 160) ||
  (c =? 5760) || ((8192 <=? c) && (c <=? 8202)) || (c =? 8239) ||
  (c =? 8287) || (c =? 12288) || (c =? 65279).

Definition isTrimmed (c : N) : bool := isWhiteSpace c || isLineTerminator c.

Fixpoint trimStart (s : jsstring) : jsstring :=
  match s with
  | [] => []
  | c :: s' => if isTrimmed c then trimStart s' else s
  end.

Definition trimEnd (s : jsstring) : jsstring := rev (trimStart (rev s)).

(** [s.trim()] *)
Definition trim (s : jsstring) : jsstring := trimEnd (trimStart s).

(** ** The coordinate detector of [handleSendMessage]

    [coordPattern = /\d{1,3}\.\d{4,}/] and [coordPattern.test(text)]. *)

Module CoordPattern.

(** [\d] without the [u] flag: the ASCII digits only. *)
Definition isDigit (c : N) : bool := (48 <=? c) && (c <=? 57).

Definition dot : N := 46.

(** [\d{4,}] at the head of [s]; what follows is irrelevant to [test]. *)
Definition fourDigits (s : jsstring) : bool :=
  match s with
  | a :: b :: c :: d :: _ => isDigit a && isDigit b && isDigit c && isDigit d
  | _ => false
  end.

(** [\.\d{4,}] at the head of [s]. *)
Definition fraction (s : jsstring) : bool :=
  match s with
  | c :: s' => (c =? dot) && fourDigits s'
  | [] => false
  end.

(** [\d{1,3}\.\d{4,}] anchored at the head of [s]: the greedy
    quantifier tries three digits, then two, then one. *)
Definition matchHere (s : jsstring) : bool :=
  match s with
  | a :: s1 =>
      isDigit a &&
      (match s1 with
       | b :: s2 =>
           (isDigit b &&
            (match s2 with
             | c :: s3 => (isDigit c && fraction s3) || fraction s2
             | [] => false
             end))
           || fraction s1
       | [] => false
       end)
  | [] => false
  end.

(** [coordPattern.test(s)]: a match at some start index. *)
Fixpoint test (s : jsstring) : bool :=
  matchHere s ||
  match s with
  | [] => false
  | _ :: s' => test s'
  end.

End CoordPattern.

(** The three notations of the documentation, as written there. *)
Definition decimalExample : jsstring := js "48.8566, 2.3522".
Definition labelledExample : jsstring := js "lat: 48.8566 lon: 2.3522".
Definition dmsExample : jsstring :=
  js "48°51'24" ++ dquote ++ js "N 2°21'08" ++ dquote ++ js "E".

(** ** JavaScript numbers

    A number is NaN, an infinity, or a finite double; every finite double
    is a rational, and the comparisons of the source are against integer
    constants, so a finite value is kept as the rational it denotes. *)

Inductive number : Type :=
| NaN
| NegInf
| Finite (q : Q)
| PosInf.

Definition Qltb (a b : Q) : bool :=
  match (a ?= b)%Q with Lt => true | _ => false end.

Definition Qleb (a b : Q) : bool :=
  match (a ?= b)%Q with Gt => false | _ => true end.

(** [a < b] *)
Definition num_lt (a b : number) : bool :=
  match a, b with
  | NaN, _ | _, NaN => false
  | NegInf, NegInf => false
  | NegInf, _ => true
  | _, NegInf => false
  | PosInf, _ => false
  | Finite _, PosInf => true
  | Finite x, Finite y => Qltb x y
  end.

(** [a <= b] *)
Definition num_le (a b : number) : bool :=
  match a, b with
  | NaN, _ | _, NaN => false
  | NegInf, _ => true
  | _, NegInf => false
  | _, PosInf => true
  | PosInf, Finite _ => false
  | Finite x, Finite y => Qleb x y
  end.

Definition ofZ (z : Z) : number := Finite (inject_Z z).

(** ToBoolean on a number: [0] and [NaN] are falsy. *)
Definition truthy_num (x : number) : bool :=
  match x with
  | NaN => false
  | Finite q => negb (Qeq_bool q 0)
  | _ => true
  end.

(** ToBoolean on a string that may be [null]/[undefined]. *)
Definition truthy_str (x : option jsstring) : bool :=
  match x with
  | Some (_ :: _) => true
  | _ => false
  end.

(** The wind scale, local to [handleSendMessage].  [None] is
    [null]/[undefined] ([kmh == null] holds for both). *)
Definition kmhToBeaufort (kmh : option number) : option Z :=
  match kmh with
  | None => None
  | Some k =>
      Some (if num_lt k (ofZ 1) then 0
            else if num_le k (ofZ 5) then 1
            else if num_le k (ofZ 11) then 2
            else if num_le k (ofZ 19) then 3
            else if num_le k (ofZ 28) then 4
            else if num_le k (ofZ 38) then 5
            else if num_le k (ofZ 49) then 6
            else if num_le k (ofZ 61) then 7
            else if num_le k (ofZ 74) then 8
            else if num_le k (ofZ 88) then 9
            else if num_le k (ofZ 102) then 10
            else if num_le k (ofZ 117) then 11
            else 12)%Z
  end.

(** ** Engine services the source calls

    Number-to-string conversion, [toFixed], the floating-point product
    [Math.PI * Math.pow(r, 2)] and the Unicode case mappings belong to
    the JavaScript engine; the handlers are written against this
    interface. *)

Record host : Type := Host {
  numToString : number -> jsstring;          (* template-literal ToString *)
  toFixed : number -> nat -> jsstring;       (* x.toFixed(d) *)
  circleArea : number -> number;             (* Math.PI * Math.pow(r, 2) *)
  toLowerCase : jsstring -> jsstring;
  toUpperCase : jsstring -> jsstring
}.

(** Template-literal rendering of a string that a truthiness guard has
    let through. *)
Definition strOrUndefined (x : option jsstring) : jsstring :=
  match x with
  | Some s => s
  | None => js "undefined"
  end.

(** A field of a parsed JSON body that a template literal prints
    unguarded: absent ([undefined]), [null], or a value. *)
Inductive nullable (A : Type) : Type :=
| Undefined
| Null
| Value (a : A).
Arguments Undefined {A}.
Arguments Null {A}.
Arguments Value {A} a.

(** Template-literal rendering of such a field. *)
Definition showNullable {A : Type} (show : A -> jsstring) (x : nullable A)
  : jsstring :=
  match x with
  | Undefined => js "undefined"
  | Null => js "null"
  | Value a => show a
  end.

Definition showField (x : nullable jsstring) : jsstring :=
  showNullable (fun s => s) x.

(** Rendering of [kmhToBeaufort(x)] inside a template literal. *)
Definition bftToString (H : host) (b : option Z) : jsstring :=
  match b with
  | Some z => numToString H (ofZ z)
  | None => js "null"
  end.

(** ** Messages, component state and the world around the component *)

Inductive role : Type := User | Assistant | System.

(** A chat message object; [isError] and [mode] are absent on some. *)
Record message : Type := Message {
  msg_role : role;
  text : jsstring;
  isError : option bool;
  mode : option jsstring
}.

Record file : Type := File { name : jsstring }.

(** The object kept in [systemHealth]. *)
Record health : Type := Health {
  status : option jsstring;
  health_message : option jsstring
}.

(** The [useState] cells of [Chatbot]. *)
Record state : Type := State {
  messages : list message;
  inputValue : jsstring;
  uploadedFile : option jsstring;
  isUploading : bool;
  isThinking : bool;
  systemHealth : option health;
  showHealth : bool;
  scenario : jsstring
}.

Inductive request : Type :=
| GetHealth
| PostChat (msg : jsstring)
| PostAnalyzeCoordinates (msg scen : jsstring)
| PostUpload (f : file).

(** Component state, the requests issued so far (oldest first) and the
    [value] of the file input element. *)
Record world : Type := World {
  st : state;
  trace : list request;
  fileInputValue : jsstring
}.

(** Outcome of [await fetch(...)] followed by [await response.json()]:
    [fetch] rejects, or the body does not parse (both land in [catch]),
    or a parsed body arrives together with [response.ok]. *)
Inductive fetched (D : Type) : Type :=
| Rejected
| Unparsed (ok : bool)
| Parsed (ok : bool) (data : D).
Arguments Rejected {D}.
Arguments Unparsed {D} ok.
Arguments Parsed {D} ok data.

(** *** Bodies of the back-end answers, as far as the handlers read them *)

Record uploadDetails : Type := UploadDetails {
  chunks : number;
  file_size_kb : number
}.

Record uploadData : Type := UploadData {
  u_success : bool;
  u_error : nullable jsstring;
  u_details : option uploadDetails
}.

Record chatData : Type := ChatData {
  c_success : bool;
  c_error : nullable jsstring;
  c_response : jsstring;
  c_mode : option jsstring
}.

Record coordinates : Type := Coordinates { lat : number; lon : number }.

Record terrainAnalysis : Type := TerrainAnalysis {
  high_ground : bool;
  cover_availability : jsstring;
  urban_terrain : bool
}.

Record address : Type := Address {
  country : option jsstring;
  country_code : nullable jsstring
}.

Record weather : Type := Weather {
  avg_temp_c : option number;
  total_precipitation_mm : option number;
  avg_wind_speed_max_kmh : option number;
  max_wind_gust_kmh : option number
}.

Record terrainData : Type := TerrainData {
  terrain_analysis : terrainAnalysis;
  place_name : option jsstring;
  td_address : option address;
  td_weather : option weather;
  radius_km : number;                    (* terrain_data.location.radius_km *)
  elevation : option number
}.

(** The fields the success branch dereferences without a guard. *)
Record analysis : Type := Analysis {
  a_coordinates : coordinates;
  terrain_data : terrainData;
  a_scenario : jsstring;
  models_used : list jsstring;
  strategy : jsstring
}.

(** [a_result = None] stands for a body on which one of the unguarded
    dereferences of the success branch throws a TypeError. *)
Record analyzeData : Type := AnalyzeData {
  a_success : bool;
  a_error : nullable jsstring;
  a_result : option analysis
}.

(** The server at 127.0.0.1:5001, seen from the component: the answer
    to a request may depend on how many requests came before it. *)
Record backend : Type := Backend {
  health_endpoint : nat -> fetched health;
  chat_endpoint : nat -> jsstring -> fetched chatData;
  analyze_endpoint : nat -> jsstring -> jsstring -> fetched analyzeData;
  upload_endpoint : nat -> file -> fetched uploadData
}.

(** *** State setters *)

Definition onState (f : state -> state) (w : world) : world :=
  World (f (st w)) (trace w) (fileInputValue w).

Definition onMessages (f : list message -> list message) : world -> world :=
  onState (fun s => State (f (messages s)) (inputValue s) (uploadedFile s)
                          (isUploading s) (isThinking s) (systemHealth s)
                          (showHealth s) (scenario s)).

(** [setMessages(prev => [...prev, m])] *)
Definition appendMessage (m : message) : world -> world :=
  onMessages (fun prev => prev ++ [m]).

(** [setMessages(prev => prev.filter(keep))] *)
Definition filterMessages (keep : message -> bool) : world -> world :=
  onMessages (List.filter keep).

Definition setInputValue (v : jsstring) : world -> world :=
  onState (fun s => State (messages s) v (uploadedFile s) (isUploading s)
                          (isThinking s) (systemHealth s) (showHealth s)
                          (scenario s)).

Definition setUploadedFile (v : option jsstring) : world -> world :=
  onState (fun s => State (messages s) (inputValue s) v (isUploading s)
                          (isThinking s) (systemHealth s) (showHealth s)
                          (scenario s)).

Definition setIsUploading (v : bool) : world -> world :=
  onState (fun s => State (messages s) (inputValue s) (uploadedFile s) v
                          (isThinking s) (systemHealth s) (showHealth s)
                          (scenario s)).

Definition setIsThinking (v : bool) : world -> world :=
  onState (fun s => State (messages s) (inputValue s) (uploadedFile s)
                          (isUploading s) v (systemHealth s) (showHealth s)
                          (scenario s)).

Definition setSystemHealth (v : option health) : world -> world :=
  onState (fun s => State (messages s) (inputValue s) (uploadedFile s)
                          (isUploading s) (isThinking s) v (showHealth s)
                          (scenario s)).

(** Issue a request. *)
Definition emit (r : request) (w : world) : world :=
  World (st w) (trace w ++ [r]) (fileInputValue w).

(** [event.target.value = ''] *)
Definition clearFileInput (w : world) : world :=
  World (st w) (trace w) [].

Definition nl : jsstring := [10].

Definition systemMessage (t : jsstring) (err : bool) : message :=
  Message System t (Some err) None.

(** [checkHealth] *)
Definition checkHealth (B : backend) (w : world) : world :=
  let w1 := emit GetHealth w in
  match health_endpoint B (length (trace w)) with
  | Parsed _ data => setSystemHealth (Some data) w1
  | _ =>
      setSystemHealth
        (Some (Health (Some (js "error"))
                      (Some (js "Cannot connect to backend server")))) w1
  end.

(** ** The handlers *)

Section Handlers.

Variable H : host.
Variable B : backend.

Definition processingDocument : jsstring := js "Processing document...".

Definition notProcessingDocument (m : message) : bool :=
  negb (bool_decide (text m = processingDocument)).

Definition notProcessing (m : message) : bool :=
  negb (includes (text m) (js "Processing")).

Definition connectionFailed : message :=
  systemMessage (js "Connection failed.") true.

(** [`Error: ${data.error}`] *)
Definition backendError (e : nullable jsstring) : message :=
  systemMessage (js "Error: " ++ showField e) true.

Definition indexedMessage (f : file) (d : uploadDetails) : message :=
  systemMessage
    (js "✓ Indexed: " ++ name f ++ nl ++
     js "Chunks: " ++ numToString H (chunks d) ++
     js " | Size: " ++ numToString H (file_size_kb d) ++ js "KB" ++ nl ++ nl ++
     js "Ready for queries.") false.

(** The [catch] block of [uploadDocument]. *)
Definition uploadCatch (w : world) : world * bool :=
  (setIsUploading false
     (appendMessage connectionFailed
        (filterMessages notProcessingDocument w)), false).

(** [uploadDocument(file, showCompletion)] with its return value. *)
Definition uploadDocument (f : file) (showCompletion : bool) (w : world)
  : world * bool :=
  let w1 := if showCompletion
            then appendMessage (systemMessage processingDocument false) w
            else w in
  let w2 := setIsUploading true w1 in
  let w3 := emit (PostUpload f) w2 in
  match upload_endpoint B (length (trace w2)) f with
  | Rejected | Unparsed _ => uploadCatch w3
  | Parsed ok data =>
      let w4 := filterMessages notProcessingDocument w3 in
      if ok && u_success data then
        let w5 := setUploadedFile (Some (name f)) w4 in
        if showCompletion then
          match u_details data with
          | None => uploadCatch w5          (* data.details.chunks throws *)
          | Some d =>
              (setIsUploading false
                 (checkHealth B (appendMessage (indexedMessage f d) w5)), true)
          end
        else (setIsUploading false (checkHealth B w5), true)
      else
        (setIsUploading false (appendMessage (backendError (u_error data)) w4),
         false)
  end.

Definition allowedTypes : list jsstring :=
  [js ".pdf"; js ".jpg"; js ".jpeg"; js ".png"; js ".bmp"; js ".tiff"].

Definition imageExtensions : list jsstring :=
  [js ".jpg"; js ".jpeg"; js ".png"; js ".bmp"; js ".tiff"].

(** [exts.some(ext => file.name.toLowerCase().endsWith(ext))] *)
Definition hasExtension (exts : list jsstring) (f : file) : bool :=
  existsb (fun ext => endsWith (toLowerCase H (name f)) ext) exts.

Definition invalidFilesOf (files : list file) : list file :=
  List.filter (fun f => negb (hasExtension allowedTypes f)) files.

Definition invalidTypeMessage (invalidFiles : list file) : message :=
  systemMessage
    (js "Invalid file type(s): " ++ join (js ", ") (map name invalidFiles) ++
     nl ++ js "Accepted: PDF, JPG, PNG, BMP, TIFF") true.

Definition imageInfoMessage : message :=
  systemMessage
    (js "ℹ️ Image files are processed via OCR for document analysis." ++
     nl ++ nl ++
     js "For tactical terrain analysis, provide coordinates in your message (e.g., " ++
     dquote ++ js "Analyze defensive positions at 48.8566, 2.3522" ++ dquote ++
     js ")") false.

Definition natToString (n : nat) : jsstring := numToString H (ofZ (Z.of_nat n)).

(** The [for (const file of files)] loop of the batch branch. *)
Fixpoint uploadEach (files : list file) (successCount failCount : nat)
         (w : world) : world * nat * nat :=
  match files with
  | [] => (w, successCount, failCount)
  | f :: rest =>
      let '(w', success) := uploadDocument f false w in
      if success then uploadEach rest (S successCount) failCount w'
      else uploadEach rest successCount (S failCount) w'
  end.

Definition batchSummary (nfiles successCount failCount : nat) : message :=
  systemMessage
    (js "✓ Batch Upload Complete" ++ nl ++ nl ++
     js "Success: " ++ natToString successCount ++
     js " | Failed: " ++ natToString failCount ++ nl ++ nl ++
     js "Ready for queries.")
    (Nat.eqb failCount nfiles).

(** [handleFileUpload(event)], [files] being [event.target.files]. *)
Definition handleFileUpload (files : list file) (w : world) : world :=
  match files with
  | [] => w
  | firstFile :: _ =>
      let invalidFiles := invalidFilesOf files in
      if (0 <? length invalidFiles)%nat then
        clearFileInput (appendMessage (invalidTypeMessage invalidFiles) w)
      else if hasExtension imageExtensions firstFile then
        let w1 := appendMessage imageInfoMessage w in
        clearFileInput (fst (uploadDocument firstFile true w1))
      else if (1 <? length files)%nat then
        let w1 :=
          appendMessage
            (systemMessage
               (js "Processing " ++ natToString (length files) ++
                js " documents..." ++ nl ++ js "Please wait...") false) w in
        let '(w2, successCount, failCount) := uploadEach files 0 0 w1 in
        let w3 := filterMessages notProcessing w2 in
        let w4 :=
          appendMessage (batchSummary (length files) successCount failCount) w3 in
        clearFileInput (checkHealth B w4)
      else
        clearFileInput (fst (uploadDocument firstFile true w))
  end.

(** *** [handleSendMessage] *)

(** [avgWindStr] and [gustStr] *)
Definition windStr (kmh : option number) : jsstring :=
  match kmh with
  | Some k =>
      numToString H k ++ js " km/h (Bft " ++
      bftToString H (kmhToBeaufort kmh) ++ js ")"
  | None => js "N/A"
  end.

(** [weather.total_precipitation_mm || 0] *)
Definition precipOrZero (p : option number) : number :=
  match p with
  | Some x => if truthy_num x then x else ofZ 0
  | None => ofZ 0
  end.

(** [weatherLine]; [None] is the [{}] of [terrain_data.weather || {}]. *)
Definition weatherLine (wt : option weather) : jsstring :=
  match wt with
  | Some wx =>
      match avg_temp_c wx with
      | Some t =>
          js "- Weather (7d): " ++ numToString H t ++ js "°C avg, " ++
          numToString H (precipOrZero (total_precipitation_mm wx)) ++
          js "mm precip" ++ nl ++
          js "- Wind (7d): avg " ++ windStr (avg_wind_speed_max_kmh wx) ++
          js ", gusts " ++ windStr (max_wind_gust_kmh wx) ++ nl
      | None => []
      end
  | None => []
  end.

Definition coordStr (c : coordinates) : jsstring :=
  toFixed H (lat c) 6 ++ js ", " ++ toFixed H (lon c) 6.

Definition elevationStr (e : option number) : jsstring :=
  match e with
  | Some x => toFixed H x 1 ++ js "m"
  | None => js "Unknown"
  end.

Definition yesNo (b : bool) : jsstring := if b then js "YES" else js "NO".

Definition countryLine (a : option address) : jsstring :=
  match a with
  | Some ad =>
      if truthy_str (country ad) then
        js "Country: " ++ strOrUndefined (country ad) ++ js " (" ++
        showField (country_code ad) ++ js ")" ++ nl
      else []
  | None => []
  end.

Definition banner : jsstring := repeat_str (js "═") 59.
Definition rule : jsstring := repeat_str (js "─") 60.

(** [tacticalResponse] *)
Definition tacticalResponse (d : analysis) : message :=
  let td := terrain_data d in
  let terrain := terrain_analysis td in
  let placeName :=
    if truthy_str (place_name td) then strOrUndefined (place_name td)
    else coordStr (a_coordinates d) in
  Message Assistant
    (banner ++ nl ++
     js "COORDINATE-BASED TACTICAL ANALYSIS" ++ nl ++
     banner ++ nl ++ nl ++
     js "Location: " ++ placeName ++ nl ++
     js "Coordinates: " ++ coordStr (a_coordinates d) ++ nl ++
     countryLine (td_address td) ++
     js "Analysis Area: " ++ numToString H (radius_km td) ++
     js " km radius (~" ++ toFixed H (circleArea H (radius_km td)) 1 ++
     js " km²)" ++ nl ++
     js "Scenario: " ++ a_scenario d ++ nl ++
     js "Analysis Method: " ++ join (js " > ") (models_used d) ++ nl ++ nl ++
     js "Quick Terrain Assessment:" ++ nl ++
     js "- Elevation: " ++ elevationStr (elevation td) ++ nl ++
     js "- High Ground: " ++ yesNo (high_ground terrain) ++ nl ++
     js "- Cover: " ++ toUpperCase H (cover_availability terrain) ++ nl ++
     js "- Urban: " ++ yesNo (urban_terrain terrain) ++ nl ++
     weatherLine (td_weather td) ++ nl ++
     rule ++ nl ++ nl ++
     strategy d ++ nl ++ nl ++
     rule ++ nl ++
     js "Data: Real terrain from OpenStreetMap + Open-Meteo Elevation API + Nominatim")
    None (Some (js "coordinate_tactical")).

Definition connectionError : message :=
  systemMessage (js "Connection error. Check backend status.") true.

(** [coordPattern.test(inputValue)] *)
Definition hasCoordinates (input : jsstring) : bool :=
  CoordPattern.test input.

(** The [try] block of the coordinate branch, after the request. *)
Definition onAnalyzeAnswer (r : fetched analyzeData) (w : world) : world :=
  match r with
  | Rejected | Unparsed _ => appendMessage connectionError w
  | Parsed ok data =>
      if ok && a_success data then
        match a_result data with
        | Some d => appendMessage (tacticalResponse d) w
        | None => appendMessage connectionError w
        end
      else appendMessage (backendError (a_error data)) w
  end.

(** The [try] block of the chat branch, after the request. *)
Definition onChatAnswer (r : fetched chatData) (w : world) : world :=
  match r with
  | Rejected | Unparsed _ => appendMessage connectionError w
  | Parsed ok data =>
      if ok && c_success data then
        appendMessage
          (Message Assistant (c_response data) None (c_mode data)) w
      else appendMessage (backendError (c_error data)) w
  end.

Definition handleSendMessage (w : world) : world :=
  let input := inputValue (st w) in
  if bool_decide (trim input = []) then w
  else
    let userMessage := Message User input None None in
    let w1 := onMessages (fun _ => messages (st w) ++ [userMessage]) w in
    let w2 := setIsThinking true (setInputValue [] w1) in
    let w3 :=
      if hasCoordinates input then
        let w' := emit (PostAnalyzeCoordinates (text userMessage)
                                               (scenario (st w))) w2 in
        onAnalyzeAnswer
          (analyze_endpoint B (length (trace w2)) (text userMessage)
                            (scenario (st w))) w'
      else
        let w' := emit (PostChat (text userMessage)) w2 in
        onChatAnswer (chat_endpoint B (length (trace w2)) (text userMessage)) w'
    in
    setIsThinking false w3.

End Handlers.

(** ** [renderInlineFormatting]

    The two regular expressions are matched the way [String.match] does
    without the [g] flag: the leftmost start index wins, and at a start
    index the lazy group [(.+?)] takes the fewest characters that let the
    rest of the pattern match.  [.] matches no line terminator. *)

Module Inline.

Definition star : N := 42.

(** Result of [remaining.match(re)]: [match.index], [match[0]] and
    [match[1]]. *)
Record regexMatch : Type := RegexMatch {
  index : nat;
  whole : jsstring;
  group1 : jsstring
}.

Definition shift (m : regexMatch) : regexMatch :=
  RegexMatch (S (index m)) (whole m) (group1 m).

(** The lazy group followed by the two closing stars, at the head of
    [s]: the captured text. *)
Fixpoint boldBody (s : jsstring) : option jsstring :=
  match s with
  | [] => None
  | c :: s' =>
      if isLineTerminator c then None
      else if startsWith s' [star; star] then Some [c]
      else match boldBody s' with
           | Some cap => Some (c :: cap)
           | None => None
           end
  end.

(** The bold pattern (two stars, lazy group, two stars) anchored at the
    head of [s]. *)
Definition boldHere (s : jsstring) : option regexMatch :=
  if startsWith s [star; star] then
    match boldBody (drop 2 s) with
    | Some cap => Some (RegexMatch 0 ([star; star] ++ cap ++ [star; star]) cap)
    | None => None
    end
  else None.

(** [remaining.match(bold pattern)] *)
Fixpoint boldMatch (s : jsstring) : option regexMatch :=
  match boldHere s with
  | Some m => Some m
  | None =>
      match s with
      | [] => None
      | _ :: s' => shift <$> boldMatch s'
      end
  end.

(** The closing star of the italic pattern at the head of [s], with
    its negative look-ahead for a star; the negative look-behind is
    checked by the caller on the last captured unit. *)
Definition closingStar (s : jsstring) : bool :=
  match s with
  | c :: after => (c =? star) && negb (startsWith after [star])
  | [] => false
  end.

(** The lazy group followed by the closing star of the italic pattern,
    at the head of [s]: the captured text. *)
Fixpoint italicBody (s : jsstring) : option jsstring :=
  match s with
  | [] => None
  | c :: s' =>
      if isLineTerminator c then None
      else if negb (c =? star) && closingStar s' then Some [c]
      else match italicBody s' with
           | Some cap => Some (c :: cap)
           | None => None
           end
  end.

(** The italic pattern anchored at the head of [s]: a star that is
    neither preceded nor followed by a star, the lazy group, and the
    closing star.  [prev] is the code unit before [s] in [remaining],
    if any. *)
Definition italicHere (prev : option N) (s : jsstring) : option regexMatch :=
  match s with
  | c :: s1 =>
      if negb (bool_decide (prev = Some star)) && (c =? star)
         && negb (startsWith s1 [star]) then
        match italicBody s1 with
        | Some cap => Some (RegexMatch 0 ([star] ++ cap ++ [star]) cap)
        | None => None
        end
      else None
  | [] => None
  end.

Fixpoint italicFrom (prev : option N) (s : jsstring) : option regexMatch :=
  match italicHere prev s with
  | Some m => Some m
  | None =>
      match s with
      | [] => None
      | c :: s' => shift <$> italicFrom (Some c) s'
      end
  end.

(** [remaining.match(italic pattern)] *)
Definition italicMatch (s : jsstring) : option regexMatch := italicFrom None s.

Inductive kind : Type := Bold | Italic.

(** "Pick whichever comes first". *)
Definition pick (remaining : jsstring) : option (regexMatch * kind) :=
  match boldMatch remaining, italicMatch remaining with
  | Some b, Some i =>
      if (index b <=? index i)%nat then Some (b, Bold) else Some (i, Italic)
  | Some b, None => Some (b, Bold)
  | None, Some i => Some (i, Italic)
  | None, None => None
  end.

(** The React elements pushed to [parts], with their keys. *)
Inductive part : Type :=
| Span (key : nat) (content : jsstring)
| Strong (key : nat) (content : jsstring)
| Em (key : nat) (content : jsstring).

(** [remaining.slice(match.index + match[0].length)] *)
Definition afterMatch (remaining : jsstring) (m : regexMatch) : jsstring :=
  drop (index m + length (whole m)) remaining.

(** Loop state: [remaining], [key], [parts]. *)
Record loopState : Type := LoopState {
  remaining : jsstring;
  key : nat;
  parts : list part
}.

(** One pass through the body of the [while]: [inl] continues with the
    new state, [inr] is the [break] with the final [parts]. *)
Definition body (s : loopState) : loopState + list part :=
  match pick (remaining s) with
  | Some (m, k) =>
      let before := take (index m) (remaining s) in
      let '(key1, parts1) :=
        match before with
        | [] => (key s, parts s)
        | _ => (S (key s), parts s ++ [Span (key s) before])
        end in
      let element :=
        match k with
        | Bold => Strong key1 (group1 m)
        | Italic => Em key1 (group1 m)
        end in
      inl (LoopState (afterMatch (remaining s) m) (S key1) (parts1 ++ [element]))
  | None => inr (parts s ++ [Span (key s) (remaining s)])
  end.

(** The [while (remaining.length > 0)] loop, run for at most [fuel]
    passes; [None] when the passes are used up. *)
Fixpoint loop (fuel : nat) (s : loopState) : option (list part) :=
  match remaining s with
  | [] => Some (parts s)
  | _ :: _ =>
      match fuel with
      | O => None
      | S fuel' =>
          match body s with
          | inl s' => loop fuel' s'
          | inr ps => Some ps
          end
      end
  end.

(** What the function returns: [null], the text itself, or the parts. *)
Inductive rendered : Type :=
| RNull
| RText (t : jsstring)
| RParts (ps : list part).

Definition renderInlineFormatting (fuel : nat) (t : jsstring) : option rendered :=
  match t with
  | [] => Some RNull
  | _ :: _ =>
      match loop fuel (LoopState t 0 []) with
      | Some [] => Some (RText t)
      | Some ps => Some (RParts ps)
      | None => None
      end
  end.

End Inline.

(** ** Terrain cache (back end)

    The cache lives in the Python back end, which is not among the
    front-end sources; its definitions follow sections 3 and 4.8 of the
    specification. *)

Module TerrainCache.

Local Open Scope Z_scope.

(** Modelled from the spec: the [Coordinate] of section 3, in decimal
    degrees; the back-end data model is missing from the sources. *)
Record coordinate : Type := Coordinate { c_lat : Q; c_lon : Q }.

(** Modelled from the spec: the [AnalysisArea] of section 3 (center and
    radius in km); the back-end data model is missing from the sources. *)
Record analysisArea : Type := AnalysisArea {
  center : coordinate;
  area_radius_km : Q
}.

(** Modelled from the spec: the time-to-live of a [CacheEntry], one
    hour, in seconds; the back-end cache module is missing. *)
Definition ttl : Z := 3600.

Section Cache.

(** The fused bundle (feature set, elevation profile, weather
    summary) and the fetch pipeline producing it at a given time. *)
Variable bundle : Type.
Variable fetchPipeline : Z -> analysisArea -> bundle.

(** Rounding of a coordinate or radius for the identity key; the
    precision is the back end's choice. *)
Variable round : Q -> Z.

(** Modelled from the spec: the identity key of an area, "the rounded
    (center, radius) pair" of section 3; the back-end module that
    builds the key is missing from the sources. *)
Definition areaKey (a : analysisArea) : Z * Z * Z :=
  (round (c_lat (center a)), round (c_lon (center a)),
   round (area_radius_km a)).

(** Modelled from the spec: the [CacheEntry] of section 3 (key, value,
    creation time; the time-to-live is the constant [ttl]); the
    back-end cache module is missing from the sources. *)
Record cacheEntry : Type := CacheEntry {
  entry_key : Z * Z * Z;
  value : bundle;
  created_at : Z
}.

(** Modelled from the spec: the store shared by all requests (section
    4.8), together with the log of pipeline runs (time, area) that
    the claims about fetching refer to; the back-end cache module is
    missing from the sources. *)
Record cache : Type := Cache {
  entries : gmap (Z * Z * Z) cacheEntry;
  fetches : list (Z * analysisArea)
}.

(** Modelled from the spec: the age of an entry at time [now]
    (section 4.8); the back-end cache module is missing. *)
Definition age (now : Z) (e : cacheEntry) : Z := now - created_at e.

(** Modelled from the spec: the miss path of section 4.8 (run the
    pipeline, store the result keyed by the area identity, return
    it); the back-end cache module is missing from the sources. *)
Definition fetchAndStore (now : Z) (a : analysisArea) (c : cache)
  : cacheEntry * cache :=
  let e := CacheEntry (areaKey a) (fetchPipeline now a) now in
  (e, Cache (<[areaKey a := e]> (entries c)) (fetches c ++ [(now, a)])).

(** Modelled from the spec: the lookup-or-fetch contract of section
    4.8 (return the cached bundle if present and of age below one
    hour; otherwise run the pipeline, store the result under the area
    identity and return it), with the lazy eviction on lookup of
    section 3; the back-end cache module is missing from the sources. *)
Definition analyze (now : Z) (a : analysisArea) (c : cache)
  : cacheEntry * cache :=
  match entries c !! areaKey a with
  | Some e =>
      if age now e <? ttl then (e, c)
      else fetchAndStore now a
             (Cache (delete (areaKey a) (entries c)) (fetches c))
  | None => fetchAndStore now a c
  end.

End Cache.

End TerrainCache.

(** ** Scenario detector (back end)

    The detector lives in the Python back end as well; its definitions
    follow sections 3 and 4.7 of the specification. *)

Module ScenarioDetector.

(** Modelled from the spec: the four classes of [ScenarioContext]
    (section 3); the back-end detector is missing from the sources. *)
Inductive scenarioClass : Type :=
| defensive
| offensive
| stability
| reconnaissance.

(** Modelled from the spec: the position of a class in the fixed
    priority order of section 4.7, smaller first; the back-end detector
    is missing from the sources. *)
Definition priority (c : scenarioClass) : nat :=
  match c with
  | defensive => 0
  | offensive => 1
  | stability => 2
  | reconnaissance => 3
  end.

Section Detector.

(** The keyword set of each class; the sets themselves are data of
    the back end. *)
Variable keywords : scenarioClass -> list jsstring.

(** Modelled from the spec: the matched trigger terms of
    [ScenarioContext] (section 3), the keywords of a class that occur
    in the message text; the back-end detector is missing. *)
Definition triggers (c : scenarioClass) (msg : jsstring) : list jsstring :=
  List.filter (fun k => includes msg k) (keywords c).

(** Modelled from the spec: the keyword score of a class (section
    4.7), the number of its keywords that match; the back-end
    detector is missing from the sources. *)
Definition score (c : scenarioClass) (msg : jsstring) : nat :=
  length (triggers c msg).

(** Modelled from the spec: the tie-break of section 4.7, keeping the
    earlier class unless the later one scores strictly more; the
    back-end detector is missing from the sources. *)
Definition better (msg : jsstring) (best c : scenarioClass) : scenarioClass :=
  if (score best msg <? score c msg)%nat then c else best.

(** Modelled from the spec: the detector of section 4.7 (highest
    keyword score, ties by the order defensive, offensive, stability,
    reconnaissance, and reconnaissance when no keyword matches); the
    back-end detector is missing from the sources. *)
Definition detect (msg : jsstring) : scenarioClass :=
  let best :=
    fold_left (better msg) [offensive; stability; reconnaissance] defensive in
  if (score best msg =? 0)%nat then reconnaissance else best.

End Detector.

End ScenarioDetector.

(** ** An engine for running the handlers on concrete inputs

    The number services of ECMAScript, computed exactly on rationals:
    rounding to the nearest double (ties to even), [Number::toString]
    (the shortest digits that read back as the same double),
    [toFixed], and [Math.PI * Math.pow(r, 2)] with [Math.pow] taken as
    correctly rounded.  A number that is not a double is first taken to
    the nearest one.  The case mappings are those of the ASCII letters
    and leave every other code unit alone.  The general theorems do not
    depend on this module. *)

Module Engine.

Local Open Scope Z_scope.

Definition decimal (z : Z) : jsstring :=
  js (DecimalString.NilZero.string_of_int (Z.to_int z)).

Definition zeros (n : Z) : jsstring := repeat_str [48%N] (Z.to_nat n).

(** [s] with zeros put in front until it has [width] digits. *)
Definition padZeros (width : nat) (s : jsstring) : jsstring :=
  repeat_str [48%N] (width - length s) ++ s.

Definition pow2 (e : Z) : Q := Qpower (2 # 1) e.
Definition pow10 (e : Z) : Q := Qpower (10 # 1) e.

(** [floor (log2 q)] and [floor (log10 q)] for [q > 0]. *)
Definition floorLog2 (q : Q) : Z :=
  let e := Z.log2 (Qnum q) - Z.log2 (Zpos (Qden q)) in
  if Qle_bool (pow2 e) q then e else e - 1.

Definition floorLog10 (q : Q) : Z :=
  let e := Z.of_nat (length (decimal (Qnum q))) -
           Z.of_nat (length (decimal (Zpos (Qden q)))) in
  if Qle_bool (pow10 e) q then e else e - 1.

Definition roundHalfEven (q : Q) : Z :=
  let f := Qfloor q in
  match Qcompare (Qminus q (inject_Z f)) (1 # 2) with
  | Lt => f
  | Gt => f + 1
  | Eq => if Z.even f then f else f + 1
  end.

(** The double nearest to [q > 0]: 53 bits in the binade of [q], the
    subnormals below [2^-1022], infinity from [2^1024] on. *)
Definition nearestPositive (q : Q) : number :=
  let e := Z.max (floorLog2 q) (-1022) in
  let ulp := pow2 (e - 52) in
  let v := Qmult (inject_Z (roundHalfEven (Qdiv q ulp))) ulp in
  if Qle_bool (pow2 1024) v then PosInf else Finite (Qred v).

Definition negate (x : number) : number :=
  match x with
  | NaN => NaN
  | NegInf => PosInf
  | PosInf => NegInf
  | Finite q => Finite (Qopp q)
  end.

Definition nearest (x : number) : number :=
  match x with
  | Finite q =>
      match Qcompare q 0 with
      | Eq => Finite 0
      | Gt => nearestPositive q
      | Lt => negate (nearestPositive (Qopp q))
      end
  | _ => x
  end.

Definition sameDouble (c v : Q) : bool :=
  match nearestPositive c with
  | Finite u => Qeq_bool u v
  | _ => false
  end.

(** An integer [s] with [s * 10^(n0 - k)] reading back as the double
    [v], if there is one: the nearer of the two integers around
    [v / 10^(n0 - k)], the even one on a tie. *)
Definition digitsFor (v : Q) (n0 k : Z) : option Z :=
  let scale := pow10 (n0 - k) in
  let lo := Qfloor (Qdiv v scale) in
  let hi := lo + 1 in
  let vlo := Qmult (inject_Z lo) scale in
  let vhi := Qmult (inject_Z hi) scale in
  match sameDouble vlo v, sameDouble vhi v with
  | true, true =>
      match Qcompare (Qminus v vlo) (Qminus vhi v) with
      | Lt => Some lo
      | Gt => Some hi
      | Eq => Some (if Z.even lo then lo else hi)
      end
  | true, false => Some lo
  | false, true => Some hi
  | false, false => None
  end.

(** The fewest digits, between 1 and 17, that identify [v]. *)
Fixpoint shortest (v : Q) (n0 : Z) (ks : list Z) : Z * Z :=
  match ks with
  | [] => (Qfloor (Qdiv v (pow10 (n0 - 17))), 17)
  | k :: rest =>
      match digitsFor v n0 k with
      | Some s => (s, k)
      | None => shortest v n0 rest
      end
  end.

Fixpoint dropZeros (rev_digits : jsstring) : jsstring :=
  match rev_digits with
  | c :: rest => if (c =? 48)%N then dropZeros rest else rev_digits
  | [] => []
  end.

(** The layout rules of [Number::toString] for the digits [D] of a
    value [0.D * 10^n]. *)
Definition layout (D : jsstring) (n : Z) : jsstring :=
  let k := Z.of_nat (length D) in
  if (k <=? n) && (n <=? 21) then D ++ zeros (n - k)
  else if (0 <? n) && (n <=? 21) then
    take (Z.to_nat n) D ++ js "." ++ drop (Z.to_nat n) D
  else if (-6 <? n) && (n <=? 0) then js "0." ++ zeros (- n) ++ D
  else
    let e := n - 1 in
    let exponent := (if e <? 0 then js "-" else js "+") ++ decimal (Z.abs e) in
    if k =? 1 then D ++ js "e" ++ exponent
    else take 1 D ++ js "." ++ drop 1 D ++ js "e" ++ exponent.

(** [Number::toString] of a double [v > 0]. *)
Definition showPositive (v : Q) : jsstring :=
  let n0 := floorLog10 v + 1 in
  let '(s, k) :=
    shortest v n0 (map Z.of_nat (seq 1 17)) in
  let all := decimal s in
  layout (rev (dropZeros (rev all))) (n0 + Z.of_nat (length all) - k).

Definition show (x : number) : jsstring :=
  match nearest x with
  | NaN => js "NaN"
  | PosInf => js "Infinity"
  | NegInf => js "-Infinity"
  | Finite q =>
      match Qcompare q 0 with
      | Eq => js "0"
      | Gt => showPositive q
      | Lt => js "-" ++ showPositive (Qopp q)
      end
  end.

(** [toFixed] of a finite double below [10^21] in size. *)
Definition fixedOfQ (q : Q) (d : nat) : jsstring :=
  let neg := Qltb q 0 in
  let m := if neg then Qopp q else q in
  let scale := 10 ^ Z.of_nat d in
  let n := Qfloor (Qplus (Qmult m (inject_Z scale)) (1 # 2)) in
  (if neg then js "-" else []) ++
  decimal (n / scale) ++
  match d with
  | O => []
  | S _ => js "." ++ padZeros d (decimal (n mod scale))
  end.

Definition fixed (x : number) (d : nat) : jsstring :=
  match nearest x with
  | Finite q =>
      if Qle_bool (pow10 21) (Qabs q) then show x else fixedOfQ q d
  | _ => show x
  end.

(** [Math.PI], the double nearest to pi. *)
Definition pi : Q := 884279719003555 # 281474976710656.

Definition area (r : number) : number :=
  let squared :=
    match nearest r with
    | NaN => NaN
    | Finite q => nearest (Finite (Qmult q q))
    | _ => PosInf
    end in
  match squared with
  | Finite a => nearest (Finite (Qmult pi a))
  | other => other
  end.

Definition lowerUnit (c : N) : N :=
  if ((65 <=? c) && (c <=? 90))%N then (c + 32)%N else c.

Definition upperUnit (c : N) : N :=
  if ((97 <=? c) && (c <=? 122))%N then (c - 32)%N else c.

Definition engine : host :=
  Host show fixed area (map lowerUnit) (map upperUnit).

End Engine.

(** ** The component after mounting *)

(** The initial values of the [useState] cells. *)
Definition initialState : state :=
  State [] [] None false false None false (js "Tactical analysis request").

Definition initialWorld : world := World initialState [] [].

(** The text area's [onChange]: [setInputValue(e.target.value)]. *)
Definition typing (v : jsstring) (w : world) : world := setInputValue v w.

(** A server that answers nothing: every [fetch] rejects. *)
Definition offline : backend :=
  Backend (fun _ => Rejected) (fun _ _ => Rejected) (fun _ _ _ => Rejected)
          (fun _ _ => Rejected).

(** A server that refuses every chat and analysis request with the
    error string [e]. *)
Definition refusing (e : jsstring) : backend :=
  Backend (fun _ => Rejected)
          (fun _ _ => Parsed false (ChatData false (Value e) [] None))
          (fun _ _ _ => Parsed false (AnalyzeData false (Value e) None))
          (fun _ _ => Rejected).

(** An analysis of the Paris example whose elevation lookup failed. *)
Definition parisAnalysis : analysis :=
  Analysis
    (Coordinates (Finite (488566 # 10000)) (Finite (23522 # 10000)))
    (TerrainData (TerrainAnalysis false (js "high") true)
                 (Some (js "Paris")) None
                 (Some (Weather (Some (ofZ 12)) None None (Some (ofZ 30))))
                 (ofZ 5) None)
    (js "Tactical analysis request") [js "terrain"; js "llm"] (js "Hold.").

(** A server that answers every analysis request with [parisAnalysis]. *)
Definition answering : backend :=
  Backend (fun _ => Rejected) (fun _ _ => Rejected)
          (fun _ _ _ => Parsed true (AnalyzeData true Undefined (Some parisAnalysis)))
          (fun _ _ => Rejected).

(** [p] occurs in [s]. *)
Definition occursIn (p s : jsstring) : Prop :=
  exists pre post, s = pre ++ p ++ post.

(** Keyword sets for running the detector on the examples of the
    documentation, with terms taken from its scenario list. *)
Definition exampleKeywords (c : ScenarioDetector.scenarioClass) : list jsstring :=
  match c with
  | ScenarioDetector.defensive => [js "defend"; js "engagement area"; js "key terrain"]
  | ScenarioDetector.offensive => [js "breach"; js "bypass"; js "objective"]
  | ScenarioDetector.stability => [js "civil"; js "infrastructure"]
  | ScenarioDetector.reconnaissance => [js "observation"; js "screen line"]
  end.

(** Rounding to four decimals, for running the cache on examples. *)
Definition round4 (q : Q) : Z := Qfloor (Qplus (Qmult q (10000 # 1)) (1 # 2)).

Definition paris : TerrainCache.analysisArea :=
  TerrainCache.AnalysisArea
    (TerrainCache.Coordinate (488566 # 10000) (23522 # 10000)) (5 # 1).

(** An empty store whose bundles are just the time of their fetch. *)
Definition emptyCache : TerrainCache.cache Z := TerrainCache.Cache Z ∅ [].

Definition stampPipeline (now : Z) (_ : TerrainCache.analysisArea) : Z := now.

(** [whole m] is the text of [s] at [index m]. *)
Definition matchedAt (s : jsstring) (m : Inline.regexMatch) : Prop :=
  exists pre post,
    s = pre ++ Inline.whole m ++ post /\ length pre = Inline.index m.

(** ** [renderMarkdown] *)

Module Markdown.

(** [renderInlineFormatting(t)], run with as many passes as [t] has code
    units, which is always enough. *)
Definition renderInline (t : jsstring) : Inline.rendered :=
  match Inline.renderInlineFormatting (length t) t with
  | Some r => r
  | None => Inline.RNull
  end.

(** [text.split('\n')] *)
Fixpoint splitLines (s : jsstring) : list jsstring :=
  match s with
  | [] => [[]]
  | c :: s' =>
      if c =? 10 then [] :: splitLines s'
      else match splitLines s' with
           | l :: ls => (c :: l) :: ls
           | [] => [[c]]
           end
  end.

(** The character class of the horizontal-rule pattern: hyphen-minus,
    light horizontal and double horizontal box drawing. *)
Definition isRuleUnit (c : N) : bool :=
  (c =? 45) || (c =? 9472) || (c =? 9552).

(** [line.match(rule pattern)]: three or more rule characters and
    nothing else. *)
Definition isRule (line : jsstring) : bool :=
  (3 <=? length line)%nat && forallb isRuleUnit line.

(** The JSX elements pushed to [elements]; [blank] tells the [div] of
    an all-whitespace line, which gets the minimum height of 8px. *)
Inductive element : Type :=
| H2 (key : nat) (children : Inline.rendered)
| H3 (key : nat) (children : Inline.rendered)
| Hr (key : nat)
| Div (key : nat) (blank : bool) (children : Inline.rendered).

(** The [if]/[else if] chain of the loop body for one line. *)
Definition renderLine (key : nat) (line : jsstring) : element :=
  if startsWith line (js "## ") then H2 key (renderInline (drop 3 line))
  else if startsWith line (js "### ") then H3 key (renderInline (drop 4 line))
  else if isRule line then Hr key
  else Div key (bool_decide (trim line = [])) (renderInline line).

(** The [for] loop: one element per line, [key] counting up. *)
Fixpoint renderLines (lines : list jsstring) (key : nat) : list element :=
  match lines with
  | [] => []
  | line :: rest => renderLine key line :: renderLines rest (S key)
  end.

(** [renderMarkdown(text)]; [None] is the [null] returned on an empty
    text. *)
Definition renderMarkdown (t : jsstring) : option (list element) :=
  match t with
  | [] => None
  | _ :: _ => Some (renderLines (splitLines t) 0)
  end.

Definition elementKey (e : element) : nat :=
  match e with
  | H2 k _ | H3 k _ | Hr k | Div k _ _ => k
  end.

End Markdown.

(** ** The remaining handlers *)

(** A [keydown] event, as far as [handleKeyDown] reads it. *)
Record keyEvent : Type := KeyEvent { key_name : jsstring; shiftKey : bool }.

(** Requests to the two endpoints that only the handlers below use. *)
Inductive adminRequest : Type :=
| PostDeleteAll
| PostUploadDoctrine (f : file).

Record deleteData : Type := DeleteData {
  d_success : bool;
  d_error : nullable jsstring
}.

Record doctrineData : Type := DoctrineData {
  k_success : bool;
  k_error : nullable jsstring;
  k_filename : nullable jsstring;
  k_chunks : nullable number;
  k_file_size_kb : nullable number
}.

(** Outcome of one pass through the [try] of [handleDoctrineUpload]:
    an exception with its [message], or a parsed body. *)
Inductive attempted : Type :=
| Threw (message : jsstring)
| Answered (ok : bool) (data : doctrineData).

(** The entries of [results]. *)
Inductive uploadResult : Type :=
| Indexed (filename : nullable jsstring) (chunks size : nullable number)
| Failed (filename : jsstring) (error : nullable jsstring).

Section MoreHandlers.

Variable H : host.
Variable B : backend.

(** [handleKeyDown(e)]; the boolean tells whether [e.preventDefault()]
    was called. *)
Definition handleKeyDown (e : keyEvent) (w : world) : world * bool :=
  if bool_decide (key_name e = js "Enter") && negb (shiftKey e)
  then (handleSendMessage H B w, true)
  else (w, false).

(** [handleRestart], [confirmed] being the answer of [window.confirm]. *)
Definition handleRestart (confirmed : bool) (w : world) : world :=
  if confirmed then checkHealth B (setInputValue [] (onMessages (fun _ => []) w))
  else w.

Definition resetComplete : message :=
  systemMessage (js "System reset complete. All data purged.") false.

(** [handleDeleteAll]: [confirmed] is the answer of [window.confirm],
    [answer] the outcome of the [/delete_all] request; the second
    component lists the requests made to that endpoint. *)
Definition handleDeleteAll (confirmed : bool) (answer : fetched deleteData)
           (w : world) : world * list adminRequest :=
  if confirmed then
    match answer with
    | Parsed ok data =>
        if ok && d_success data then
          let w1 := setUploadedFile None
                      (setInputValue [] (onMessages (fun _ => []) w)) in
          (checkHealth B (onMessages (fun _ => [resetComplete]) w1),
           [PostDeleteAll])
        else (appendMessage (backendError (d_error data)) w, [PostDeleteAll])
    | _ => (appendMessage connectionFailed w, [PostDeleteAll])
    end
  else (w, []).

(** Template-literal rendering of a number field that may be absent or
    [null]. *)
Definition numOrUndefined (x : nullable number) : jsstring :=
  showNullable (numToString H) x.

(** One pass of the [for (const file of files)] loop of
    [handleDoctrineUpload]: the entry pushed to [results]. *)
Definition doctrineResult (f : file) (r : attempted) : uploadResult :=
  match r with
  | Answered ok data =>
      if ok && k_success data
      then Indexed (k_filename data) (k_chunks data) (k_file_size_kb data)
      else Failed (name f) (k_error data)
  | Threw message => Failed (name f) (Value message)
  end.

Definition isIndexed (r : uploadResult) : bool :=
  match r with
  | Indexed _ _ _ => true
  | Failed _ _ => false
  end.

(** The loop itself: [i] is the position of the next file in the
    selection, [answers i f] the outcome of its request. *)
Fixpoint doctrineEach (answers : nat -> file -> attempted) (i : nat)
         (files : list file) (successCount failCount : nat)
         (results : list uploadResult) : nat * nat * list uploadResult :=
  match files with
  | [] => (successCount, failCount, results)
  | f :: rest =>
      let r := doctrineResult f (answers i f) in
      if isIndexed r
      then doctrineEach answers (S i) rest (S successCount) failCount
                        (results ++ [r])
      else doctrineEach answers (S i) rest successCount (S failCount)
                        (results ++ [r])
  end.

(** The text added per entry by [results.forEach]. *)
Definition resultBlock (r : uploadResult) : jsstring :=
  match r with
  | Indexed filename chunks size =>
      js "✓ " ++ showField filename ++ nl ++
      js "  Chunks: " ++ numOrUndefined chunks ++
      js " | Size: " ++ numOrUndefined size ++ js "KB" ++ nl ++ nl
  | Failed filename error =>
      js "✗ " ++ filename ++ nl ++
      js "  Error: " ++ showField error ++ nl ++ nl
  end.

Definition rule50 : jsstring := repeat_str (js "─") 50.

(** [resultText] *)
Definition doctrineSummaryText (successCount failCount : nat)
           (results : list uploadResult) : jsstring :=
  js "✓ Knowledge Base Batch Upload Complete" ++ nl ++ nl ++
  (js "Success: " ++ natToString H successCount ++
   js " | Failed: " ++ natToString H failCount ++ nl) ++
  (rule50 ++ nl ++ nl) ++
  concat (map resultBlock results) ++
  (rule50 ++ nl ++
   js "KB documents are permanently available for all queries.").

(** [handleDoctrineUpload(event)], [files] being [event.target.files];
    the second component lists the requests made to
    [/upload_doctrine], oldest first. *)
Definition handleDoctrineUpload (answers : nat -> file -> attempted)
           (files : list file) (w : world) : world * list adminRequest :=
  match files with
  | [] => (w, [])
  | _ :: _ =>
      let uploadingMsg :=
        systemMessage
          (js "Processing " ++ natToString H (length files) ++
           js " Knowledge Base document" ++
           (if (1 <? length files)%nat then js "s" else []) ++
           js "..." ++ nl ++ js "Please wait...") false in
      let w1 := setIsUploading true (appendMessage uploadingMsg w) in
      let '(successCount, failCount, results) :=
        doctrineEach answers 0 files 0 0 [] in
      let w2 := filterMessages notProcessing w1 in
      let summaryMsg :=
        systemMessage (doctrineSummaryText successCount failCount results)
                      (Nat.eqb failCount (length files)) in
      let w3 := appendMessage summaryMsg w2 in
      (clearFileInput (checkHealth B (setIsUploading false w3)),
       map PostUploadDoctrine files)
  end.

End MoreHandlers.

(** *** Reading rendered parts back as text *)

(** The source text of one part: the content of a [span], the content
    of a [strong] between two pairs of stars, the content of an [em]
    between two stars. *)
Definition partSource (p : Inline.part) : jsstring :=
  match p with
  | Inline.Span _ c => c
  | Inline.Strong _ c => [Inline.star; Inline.star] ++ c ++ [Inline.star; Inline.star]
  | Inline.Em _ c => [Inline.star] ++ c ++ [Inline.star]
  end.

Definition partsSource (ps : list Inline.part) : jsstring :=
  concat (map partSource ps).

Definition partKey (p : Inline.part) : nat :=
  match p with
  | Inline.Span k _ | Inline.Strong k _ | Inline.Em k _ => k
  end.

Definition renderedSource (r : Inline.rendered) : jsstring :=
  match r with
  | Inline.RNull => []
  | Inline.RText t => t
  | Inline.RParts ps => partsSource ps
  end.

(** The source line of an element; a rule keeps no text. *)
Definition elementSource (e : Markdown.element) : jsstring :=
  match e with
  | Markdown.H2 _ c => js "## " ++ renderedSource c
  | Markdown.H3 _ c => js "### " ++ renderedSource c
  | Markdown.Hr _ => []
  | Markdown.Div _ _ c => renderedSource c
  end.

(** A server whose [/upload] endpoint accepts every file. *)
Definition accepting : backend :=
  Backend (fun _ => Rejected) (fun _ _ => Rejected) (fun _ _ _ => Rejected)
          (fun _ _ =>
             Parsed true
                    (UploadData true Undefined
                                (Some (UploadDetails (ofZ 3) (ofZ 12))))).

(** The knowledge-base endpoint answering the first file of a
    selection and failing on the others. *)
Definition firstOnly (i : nat) (f : file) : attempted :=
  match i with
  | O => Answered true
                  (DoctrineData true Undefined (Value (name f)) (Value (ofZ 4))
                                (Value (ofZ 20)))
  | S _ => Threw (js "Failed to fetch")
  end.

(** The files sent to [/upload] in a request log, oldest first. *)
Definition uploadsIn (t : list request) : list file :=
  flat_map (fun r => match r with PostUpload f => [f] | _ => [] end) t.

(** A part with content: no part is empty, and emphasised text holds no
    line terminator. *)
Definition properPart (p : Inline.part) : Prop :=
  match p with
  | Inline.Span _ c => c <> []
  | Inline.Strong _ c | Inline.Em _ c =>
      c <> [] /\ forallb (fun u => negb (isLineTerminator u)) c = true
  end.

(** What the loop of [renderInlineFormatting] keeps true from pass to
    pass, for the text [t] it was started on. *)
Definition steady (t : jsstring) (s : Inline.loopState) : Prop :=
  partsSource (Inline.parts s) ++ Inline.remaining s = t /\
  map partKey (Inline.parts s) = seq 0 (Inline.key s) /\
  Forall properPart (Inline.parts s).

(** What its final [parts] satisfy. *)
Definition finished (t : jsstring) (ps : list Inline.part) : Prop :=
  partsSource ps = t /\
  map partKey ps = seq 0 (length ps) /\
  Forall properPart ps.

(** The entries of [results] after the loop of [handleDoctrineUpload],
    in closed form: the outcome of each file, in the order of the
    selection, [i] being the position of the first file. *)
Definition outcomes (answers : nat -> file -> attempted) (i : nat)
           (files : list file) : list uploadResult :=
  imap (fun j f => doctrineResult f (answers (i + j)%nat f)) files.

(** *** Answers that are not a success *)

(** The plain-text body of the answer of a crashed server. *)
Definition serverErrorPage : jsstring := js "Internal Server Error".

(** A server that crashed: every chat and analysis request is answered
    with status 500 and the body [serverErrorPage], which is not JSON,
    so [response.json()] rejects. *)
Definition crashed : backend :=
  Backend (fun _ => Rejected) (fun _ _ => Unparsed false)
          (fun _ _ _ => Unparsed false) (fun _ _ => Rejected).

(** The ways an answer is not a success: the request failed, the body
    is not JSON, or the body parsed and [response.ok && data.success]
    is false; the last one carries the body's [error] field. *)
Inductive refusal : Type :=
| NoAnswer
| NotJson (ok : bool)
| Refused (ok : bool) (error : nullable jsstring).

Definition analyzeRefusal (r : fetched analyzeData) : option refusal :=
  match r with
  | Rejected => Some NoAnswer
  | Unparsed ok => Some (NotJson ok)
  | Parsed ok data =>
      if ok && a_success data then None else Some (Refused ok (a_error data))
  end.

Definition chatRefusal (r : fetched chatData) : option refusal :=
  match r with
  | Rejected => Some NoAnswer
  | Unparsed ok => Some (NotJson ok)
  | Parsed ok data =>
      if ok && c_success data then None else Some (Refused ok (c_error data))
  end.

(** The back end's error string [e] is surfaced: after the send the
    messages are [before], the user's message and a system message
    flagged as an error whose text contains [e]. *)
Definition errorSurfaced (e input : jsstring) (before after : list message)
  : Prop :=
  exists m,
    after = before ++ [Message User input None None; m] /\
    msg_role m = System /\
    isError m = Some true /\
    includes (text m) e = true.

(** * Properties *)

(** ** Strings *)

Lemma startsWith_app (p r : jsstring) : startsWith (p ++ r) p = true.
Proof.
  induction p as [|a p IH]; simpl; [reflexivity|].
  unfold unit_eqb. rewrite N.eqb_refl. exact IH.
Qed.

Lemma startsWith_inv (s p : jsstring) :
  startsWith s p = true -> exists r, s = p ++ r.
Proof.
  revert s. induction p as [|a p IH]; intros s Hs.
  - exists s. reflexivity.
  - destruct s as [|b s]; simpl in Hs; [discriminate|].
    apply andb_prop in Hs as [Hab Hrest].
    apply N.eqb_eq in Hab. subst b.
    destruct (IH _ Hrest) as [r ->]. exists r. reflexivity.
Qed.

Lemma includes_unfold (s p : jsstring) :
  includes s p =
  startsWith s p || match s with [] => false | _ :: s' => includes s' p end.
Proof. destruct s; reflexivity. Qed.

Lemma includes_occurs (s p : jsstring) :
  includes s p = true <-> occursIn p s.
Proof.
  split.
  - induction s as [|c s IH]; simpl; intros Hs.
    + rewrite orb_false_r in Hs.
      destruct (startsWith_inv _ _ Hs) as [r Hr]. exists [], r. exact Hr.
    + apply orb_prop in Hs as [Hs|Hs].
      * destruct (startsWith_inv _ _ Hs) as [r Hr]. exists [], r. exact Hr.
      * destruct (IH Hs) as (pre & post & ->). exists (c :: pre), post.
        reflexivity.
  - intros (pre & post & ->).
    induction pre as [|c pre IH].
    + rewrite includes_unfold, app_nil_l, startsWith_app. reflexivity.
    + rewrite includes_unfold. simpl. rewrite IH. apply orb_true_r.
Qed.

Lemma occursIn_head (p rest : jsstring) : occursIn p (p ++ rest).
Proof. exists [], rest. reflexivity. Qed.

Lemma occursIn_app_r (p a b : jsstring) : occursIn p b -> occursIn p (a ++ b).
Proof.
  intros (pre & post & ->). exists (a ++ pre), post.
  rewrite <- app_assoc. reflexivity.
Qed.

Lemma occursIn_app_l (p a b : jsstring) : occursIn p a -> occursIn p (a ++ b).
Proof.
  intros (pre & post & ->). exists pre, (post ++ b).
  rewrite <- !app_assoc. reflexivity.
Qed.

Lemma occursIn_join (sep x : jsstring) (xs : list jsstring) :
  In x xs -> occursIn x (join sep xs).
Proof.
  induction xs as [|y ys IH]; intros Hin; [destruct Hin|].
  destruct Hin as [->|Hin].
  - destruct ys as [|z ys]; simpl.
    + exists [], []. rewrite app_nil_r. reflexivity.
    + apply occursIn_head.
  - destruct ys as [|z ys]; [destruct Hin|].
    change (join sep (y :: z :: ys)) with (y ++ sep ++ join sep (z :: ys)).
    do 2 apply occursIn_app_r. exact (IH Hin).
Qed.

Lemma trimStart_nil_iff (s : jsstring) :
  trimStart s = [] <-> forallb isTrimmed s = true.
Proof.
  induction s as [|c s IH]; simpl; [tauto|].
  destruct (isTrimmed c); simpl; [exact IH|].
  split; discriminate.
Qed.

Lemma trimStart_head (s : jsstring) :
  match trimStart s with
  | [] => True
  | c :: _ => isTrimmed c = false
  end.
Proof.
  induction s as [|c s IH]; simpl; [exact I|].
  destruct (isTrimmed c) eqn:E; [exact IH|exact E].
Qed.

(** The guard of [handleSendMessage]: [inputValue.trim() === ''] holds
    exactly for the empty and the all-whitespace inputs. *)
Lemma trim_nil_iff (s : jsstring) :
  trim s = [] <-> forallb isTrimmed s = true.
Proof.
  unfold trim, trimEnd. rewrite <- trimStart_nil_iff. split.
  - intros Ht.
    assert (Hr : trimStart (rev (trimStart s)) = []).
    { rewrite <- (rev_involutive (trimStart _)), Ht. reflexivity. }
    pose proof (trimStart_head s) as Hh.
    destruct (trimStart s) as [|c t]; [reflexivity|].
    apply trimStart_nil_iff in Hr.
    rewrite forallb_forall in Hr.
    specialize (Hr c). rewrite Hr in Hh; [discriminate|].
    apply in_rev. rewrite rev_involutive. left. reflexivity.
  - intros ->. reflexivity.
Qed.

(** ** Numbers *)

Lemma Qltb_lt (a b : Q) : Qltb a b = true <-> (a < b)%Q.
Proof.
  unfold Qltb. rewrite Qlt_alt. destruct (a ?= b)%Q; split; congruence.
Qed.

Lemma Qltb_ge (a b : Q) : Qltb a b = false <-> (b <= a)%Q.
Proof.
  rewrite <- not_true_iff_false, Qltb_lt. split; [apply Qnot_lt_le|apply Qle_not_lt].
Qed.

Lemma Qleb_le (a b : Q) : Qleb a b = true <-> (a <= b)%Q.
Proof.
  unfold Qleb. rewrite Qle_alt. destruct (a ?= b)%Q; split; congruence.
Qed.

Lemma Qleb_gt (a b : Q) : Qleb a b = false <-> (b < a)%Q.
Proof.
  rewrite <- not_true_iff_false, Qleb_le. split; [apply Qnot_le_lt|apply Qlt_not_le].
Qed.

(** ** The wind scale *)

Ltac split_if :=
  match goal with
  | |- context [if ?c then _ else _] =>
      lazymatch c with
      | true => fail
      | false => fail
      | _ => destruct c eqn:?; cbv iota
      end
  end.

Ltac to_Q :=
  repeat match goal with
    | E : Qltb _ _ = true |- _ => apply Qltb_lt in E
    | E : Qltb _ _ = false |- _ => apply Qltb_ge in E
    | E : Qleb _ _ = true |- _ => apply Qleb_le in E
    | E : Qleb _ _ = false |- _ => apply Qleb_gt in E
    end;
  unfold inject_Z in *.

Lemma kmhToBeaufort_range (k : number) :
  exists n, kmhToBeaufort (Some k) = Some n /\ (0 <= n <= 12)%Z.
Proof.
  unfold kmhToBeaufort. eexists. split; [reflexivity|].
  repeat split_if; lia.
Qed.

Lemma kmhToBeaufort_finite_mono (a b : Q) (na nb : Z) :
  (a <= b)%Q ->
  kmhToBeaufort (Some (Finite a)) = Some na ->
  kmhToBeaufort (Some (Finite b)) = Some nb ->
  (na <= nb)%Z.
Proof.
  unfold kmhToBeaufort, ofZ, num_lt, num_le. intros Hab Ha Hb.
  injection Ha as <-. injection Hb as <-.
  repeat split_if; try lia; to_Q; lra.
Qed.

(** C6.  [kmhToBeaufort] returns [null] exactly on [null]; on every
    number it returns an integer between 0 and 12; and it is monotone:
    when [a <= b] holds in JavaScript, the scale of [a] is at most the
    scale of [b]. *)
Theorem kmhToBeaufort_null_range_monotone :
  (forall kmh, kmhToBeaufort kmh = None <-> kmh = None) /\
  (forall k, exists n, kmhToBeaufort (Some k) = Some n /\ (0 <= n <= 12)%Z) /\
  (forall a b na nb,
      num_le a b = true ->
      kmhToBeaufort (Some a) = Some na ->
      kmhToBeaufort (Some b) = Some nb ->
      (na <= nb)%Z).
Proof.
  split; [|split].
  - intros [k|]; simpl; split; congruence.
  - exact kmhToBeaufort_range.
  - intros a b na nb Hle Ha Hb.
    destruct a as [| |a|], b as [| |b|]; simpl in Hle; try discriminate.
    + vm_compute in Ha, Hb. injection Ha as <-. injection Hb as <-. lia.
    + vm_compute in Ha. injection Ha as <-.
      destruct (kmhToBeaufort_range (Finite b)) as (n & Hn & Hr).
      rewrite Hn in Hb. injection Hb as <-. lia.
    + vm_compute in Ha, Hb. injection Ha as <-. injection Hb as <-. lia.
    + apply Qleb_le in Hle. exact (kmhToBeaufort_finite_mono a b na nb Hle Ha Hb).
    + vm_compute in Hb. injection Hb as <-.
      destruct (kmhToBeaufort_range (Finite a)) as (n & Hn & Hr).
      rewrite Hn in Ha. injection Ha as <-. lia.
    + vm_compute in Ha, Hb. injection Ha as <-. injection Hb as <-. lia.
Qed.

Lemma kmhToBeaufort_null_range_monotone_witness :
  kmhToBeaufort (Some (ofZ 30)) = Some 5%Z /\
  kmhToBeaufort (Some (ofZ 62)) = Some 8%Z /\
  (5 <= 8)%Z.
Proof.
  split; [reflexivity|]. split; [reflexivity|].
  apply (proj2 (proj2 kmhToBeaufort_null_range_monotone)
           (ofZ 30) (ofZ 62) 5%Z 8%Z); reflexivity.
Defined.

(** ** [handleSendMessage] *)

Section SendMessage.

Variable H : host.
Variable B : backend.

Lemma guard_false (w : world) :
  trim (inputValue (st w)) <> [] ->
  bool_decide (trim (inputValue (st w)) = []) = false.
Proof. intros Hne. apply bool_decide_eq_false. exact Hne. Qed.

Lemma onAnalyzeAnswer_trace (r : fetched analyzeData) (w : world) :
  trace (onAnalyzeAnswer H r w) = trace w.
Proof.
  destruct r as [| ok | ok data]; simpl; try reflexivity.
  destruct (ok && a_success data); [destruct (a_result data)|]; reflexivity.
Qed.

Lemma onChatAnswer_trace (r : fetched chatData) (w : world) :
  trace (onChatAnswer r w) = trace w.
Proof.
  destruct r as [| ok | ok data]; simpl; try reflexivity.
  destruct (ok && c_success data); reflexivity.
Qed.

(** A non-blank message issues exactly one request, chosen by the
    coordinate detector. *)
Lemma handleSendMessage_trace (w : world) :
  trim (inputValue (st w)) <> [] ->
  trace (handleSendMessage H B w) =
  trace w ++
  [if hasCoordinates (inputValue (st w))
   then PostAnalyzeCoordinates (inputValue (st w)) (scenario (st w))
   else PostChat (inputValue (st w))].
Proof.
  intros Hne. unfold handleSendMessage. rewrite (guard_false w Hne).
  destruct (hasCoordinates (inputValue (st w))); simpl.
  - rewrite onAnalyzeAnswer_trace. reflexivity.
  - rewrite onChatAnswer_trace. reflexivity.
Qed.

(** The messages after a non-blank send: the history, the user's
    message, and one reply. *)
Lemma handleSendMessage_analyze (w : world) :
  trim (inputValue (st w)) <> [] ->
  hasCoordinates (inputValue (st w)) = true ->
  st (handleSendMessage H B w) =
  st (setIsThinking false
        (onAnalyzeAnswer H
           (analyze_endpoint B (length (trace w)) (inputValue (st w))
                             (scenario (st w)))
           (World (State (messages (st w) ++
                            [Message User (inputValue (st w)) None None])
                         [] (uploadedFile (st w)) (isUploading (st w)) true
                         (systemHealth (st w)) (showHealth (st w))
                         (scenario (st w)))
                  (trace w ++ [PostAnalyzeCoordinates (inputValue (st w))
                                                      (scenario (st w))])
                  (fileInputValue w)))).
Proof.
  intros Hne Hc. unfold handleSendMessage.
  rewrite (guard_false w Hne), Hc. reflexivity.
Qed.

Lemma handleSendMessage_chat (w : world) :
  trim (inputValue (st w)) <> [] ->
  hasCoordinates (inputValue (st w)) = false ->
  st (handleSendMessage H B w) =
  st (setIsThinking false
        (onChatAnswer
           (chat_endpoint B (length (trace w)) (inputValue (st w)))
           (World (State (messages (st w) ++
                            [Message User (inputValue (st w)) None None])
                         [] (uploadedFile (st w)) (isUploading (st w)) true
                         (systemHealth (st w)) (showHealth (st w))
                         (scenario (st w)))
                  (trace w ++ [PostChat (inputValue (st w))])
                  (fileInputValue w)))).
Proof.
  intros Hne Hc. unfold handleSendMessage.
  rewrite (guard_false w Hne), Hc. reflexivity.
Qed.

Lemma backendError_surfaces (e : nullable jsstring) :
  msg_role (backendError e) = System /\
  isError (backendError e) = Some true /\
  forall s, e = Value s -> includes (text (backendError e)) s = true.
Proof.
  split; [reflexivity|]. split; [reflexivity|].
  intros s ->. apply includes_occurs. unfold backendError, systemMessage, text.
  cbn [showField showNullable].
  apply occursIn_app_r. exists [], []. rewrite app_nil_r. reflexivity.
Qed.

(** A transport failure (the request rejects or the body does not
    parse) is reported too, as a connection error. *)
Lemma transport_failure_is_reported (w : world) :
  onAnalyzeAnswer H Rejected w = appendMessage connectionError w /\
  (forall ok, onAnalyzeAnswer H (Unparsed ok) w = appendMessage connectionError w) /\
  onChatAnswer Rejected w = appendMessage connectionError w /\
  (forall ok, onChatAnswer (Unparsed ok) w = appendMessage connectionError w) /\
  isError connectionError = Some true.
Proof. repeat split. Qed.

End SendMessage.

Lemma occursIn_head2 (p a b rest : jsstring) :
  p = a ++ b -> occursIn p (a ++ b ++ rest).
Proof. intros ->. exists [], rest. rewrite <- app_assoc. reflexivity. Qed.

Lemma occursIn_head3 (p a b c rest : jsstring) :
  p = a ++ b ++ c -> occursIn p (a ++ b ++ c ++ rest).
Proof. intros ->. exists [], rest. rewrite <- !app_assoc. reflexivity. Qed.

(** Walk down a chain of appends to the segment [seg], then finish. *)
Ltac seek seg fin :=
  lazymatch goal with
  | |- occursIn _ (?h ++ _) =>
      first [ constr_eq h seg; fin | apply occursIn_app_r; seek seg fin ]
  end.

(** The decimal and the labelled notation are detected. *)
Lemma decimal_and_labelled_detected :
  hasCoordinates decimalExample = true /\ hasCoordinates labelledExample = true.
Proof. split; vm_compute; reflexivity. Qed.

(** Without a decimal point in the text the detector never fires. *)
Lemma no_dot_no_coordinates (s : jsstring) :
  ~ In CoordPattern.dot s -> hasCoordinates s = false.
Proof.
  unfold hasCoordinates.
  assert (Hfrac : forall t, ~ In CoordPattern.dot t -> CoordPattern.fraction t = false).
  { intros [|c t] Hn; [reflexivity|]. simpl.
    destruct (N.eqb_spec c CoordPattern.dot) as [->|_]; [|reflexivity].
    destruct Hn. left. reflexivity. }
  induction s as [|a s IH]; intros Hn; [reflexivity|].
  cbn [CoordPattern.test]. rewrite IH by (intros Hin; apply Hn; right; exact Hin).
  rewrite orb_false_r. unfold CoordPattern.matchHere.
  destruct s as [|b s2]; [apply andb_false_r|].
  destruct s2 as [|c s3].
  - rewrite (Hfrac [b]) by (intros Hin; apply Hn; right; exact Hin).
    rewrite andb_false_r. apply andb_false_r.
  - rewrite (Hfrac s3), (Hfrac (c :: s3)), (Hfrac (b :: c :: s3)).
    + rewrite !andb_false_r. reflexivity.
    + intros Hin. apply Hn. right. exact Hin.
    + intros Hin. apply Hn. right. right. exact Hin.
    + intros Hin. apply Hn. right. right. right. exact Hin.
Qed.

(** C1.  The coordinate detector rejects the degrees-minutes-seconds
    notation of the documentation, and [handleSendMessage] sends such a
    message to [/chat] instead of [/analyze_coordinates]. *)
Theorem dms_message_goes_to_chat (H : host) (B : backend) :
  hasCoordinates dmsExample = false /\
  trace (handleSendMessage H B (typing dmsExample initialWorld)) =
  [PostChat dmsExample].
Proof.
  split; [vm_compute; reflexivity|].
  rewrite handleSendMessage_trace.
  - reflexivity.
  - vm_compute. discriminate.
Qed.

(** C9.  When the input is empty or whitespace only, [handleSendMessage]
    leaves everything as it was: no message, no request, no change of
    [isThinking] or of any other state cell. *)
Theorem blank_input_is_ignored (H : host) (B : backend) (w : world) :
  forallb isTrimmed (inputValue (st w)) = true ->
  handleSendMessage H B w = w.
Proof.
  intros Hblank. apply trim_nil_iff in Hblank.
  unfold handleSendMessage. rewrite bool_decide_eq_true_2; [reflexivity|].
  exact Hblank.
Qed.

Lemma blank_input_is_ignored_witness :
  handleSendMessage Engine.engine offline (typing (js "  " ++ nl) initialWorld) =
  typing (js "  " ++ nl) initialWorld.
Proof.
  apply (blank_input_is_ignored Engine.engine offline
           (typing (js "  " ++ nl) initialWorld)).
  vm_compute. reflexivity.
Defined.

(** C7, as stated, fails on a crashed server: the answer is not ok, its
    body is the plain text [serverErrorPage], and the message the user
    gets is the fixed connection error, which does not contain it. *)
Lemma crashed_server_error_not_surfaced :
  ~ errorSurfaced serverErrorPage decimalExample []
      (messages (st (handleSendMessage Engine.engine crashed
                       (typing decimalExample initialWorld)))) /\
  ~ errorSurfaced serverErrorPage (js "What is a screen line?") []
      (messages (st (handleSendMessage Engine.engine crashed
                       (typing (js "What is a screen line?") initialWorld)))).
Proof.
  split; intros (m & Hm & _ & _ & Hinc); vm_compute in Hm;
    injection Hm as <-; vm_compute in Hinc; discriminate.
Qed.

(** C7, amended.  Whenever the answer to [/analyze_coordinates] or
    [/chat] is not a success, the messages become the history, then the
    user's message, then one system message flagged as an error.  When
    the body parsed as JSON ([response.ok] false or [data.success]
    false), its text is [Error: ] followed by the body's [error] field,
    so it contains the back end's error string when that field is a
    string.  When the body did not parse or the request failed, its text
    is the fixed [Connection error. Check backend status.]. *)
Theorem non_success_is_reported (H : host) (B : backend) (w : world)
        (x : refusal) :
  let input := inputValue (st w) in
  trim input <> [] ->
  (if hasCoordinates input
   then analyzeRefusal
          (analyze_endpoint B (length (trace w)) input (scenario (st w)))
   else chatRefusal (chat_endpoint B (length (trace w)) input)) = Some x ->
  exists m,
    messages (st (handleSendMessage H B w)) =
    messages (st w) ++ [Message User input None None; m] /\
    msg_role m = System /\
    isError m = Some true /\
    match x with
    | Refused _ e =>
        text m = js "Error: " ++ showField e /\
        forall s, e = Value s -> includes (text m) s = true
    | NoAnswer | NotJson _ =>
        text m = js "Connection error. Check backend status."
    end.
Proof.
  intros input Hne Hx.
  destruct (hasCoordinates input) eqn:Hc.
  - rewrite handleSendMessage_analyze by assumption. fold input.
    unfold analyzeRefusal in Hx.
    destruct (analyze_endpoint B _ input _) as [|ok|ok data].
    + injection Hx as <-. exists connectionError. split; [|repeat split].
      simpl. rewrite <- app_assoc. reflexivity.
    + injection Hx as <-. exists connectionError. split; [|repeat split].
      simpl. rewrite <- app_assoc. reflexivity.
    + simpl. destruct (ok && a_success data); [discriminate|].
      injection Hx as <-. exists (backendError (a_error data)).
      split; [simpl; rewrite <- app_assoc; reflexivity|].
      split; [reflexivity|]. split; [reflexivity|]. split; [reflexivity|].
      apply backendError_surfaces.
  - rewrite handleSendMessage_chat by assumption. fold input.
    unfold chatRefusal in Hx.
    destruct (chat_endpoint B _ input) as [|ok|ok data].
    + injection Hx as <-. exists connectionError. split; [|repeat split].
      simpl. rewrite <- app_assoc. reflexivity.
    + injection Hx as <-. exists connectionError. split; [|repeat split].
      simpl. rewrite <- app_assoc. reflexivity.
    + simpl. destruct (ok && c_success data); [discriminate|].
      injection Hx as <-. exists (backendError (c_error data)).
      split; [simpl; rewrite <- app_assoc; reflexivity|].
      split; [reflexivity|]. split; [reflexivity|]. split; [reflexivity|].
      apply backendError_surfaces.
Qed.

Lemma non_success_is_reported_witness :
  let w := typing decimalExample initialWorld in
  exists m,
    messages (st (handleSendMessage Engine.engine
                    (refusing (js "No coordinates found")) w)) =
    messages (st w) ++ [Message User (inputValue (st w)) None None; m] /\
    msg_role m = System /\
    isError m = Some true /\
    (text m = js "Error: " ++ showField (Value (js "No coordinates found")) /\
     forall s, Value (js "No coordinates found") = Value s ->
               includes (text m) s = true).
Proof.
  intros w.
  apply (non_success_is_reported Engine.engine
           (refusing (js "No coordinates found")) w
           (Refused false (Value (js "No coordinates found")))).
  - vm_compute. discriminate.
  - vm_compute. reflexivity.
Defined.

(** ** The tactical report *)

(** C3.  When a successful [/analyze_coordinates] answer has a null
    elevation, [handleSendMessage] still appends the assistant's
    tactical-analysis message after the user's message: the whole
    report, from the banner to the data-source line, in which the
    elevation line reads [- Elevation: Unknown]. *)
Theorem null_elevation_still_reports (H : host) (B : backend) (w : world)
        (data : analyzeData) (d : analysis) :
  let input := inputValue (st w) in
  let td := terrain_data d in
  let coords :=
    toFixed H (lat (a_coordinates d)) 6 ++ js ", " ++
    toFixed H (lon (a_coordinates d)) 6 in
  trim input <> [] ->
  hasCoordinates input = true ->
  analyze_endpoint B (length (trace w)) input (scenario (st w)) =
  Parsed true data ->
  a_success data = true ->
  a_result data = Some d ->
  elevation td = None ->
  messages (st (handleSendMessage H B w)) =
  messages (st w) ++ [Message User input None None; tacticalResponse H d] /\
  tacticalResponse H d =
  Message Assistant
    (repeat_str (js "═") 59 ++ nl ++
     js "COORDINATE-BASED TACTICAL ANALYSIS" ++ nl ++
     repeat_str (js "═") 59 ++ nl ++ nl ++
     js "Location: " ++
     (if truthy_str (place_name td) then strOrUndefined (place_name td)
      else coords) ++ nl ++
     js "Coordinates: " ++ coords ++ nl ++
     match td_address td with
     | Some ad =>
         if truthy_str (country ad) then
           js "Country: " ++ strOrUndefined (country ad) ++ js " (" ++
           showField (country_code ad) ++ js ")" ++ nl
         else []
     | None => []
     end ++
     js "Analysis Area: " ++ numToString H (radius_km td) ++
     js " km radius (~" ++ toFixed H (circleArea H (radius_km td)) 1 ++
     js " km²)" ++ nl ++
     js "Scenario: " ++ a_scenario d ++ nl ++
     js "Analysis Method: " ++ join (js " > ") (models_used d) ++ nl ++ nl ++
     js "Quick Terrain Assessment:" ++ nl ++
     js "- Elevation: Unknown" ++ nl ++
     js "- High Ground: " ++
     (if high_ground (terrain_analysis td) then js "YES" else js "NO") ++ nl ++
     js "- Cover: " ++
     toUpperCase H (cover_availability (terrain_analysis td)) ++ nl ++
     js "- Urban: " ++
     (if urban_terrain (terrain_analysis td) then js "YES" else js "NO") ++ nl ++
     match td_weather td with
     | Some wx =>
         match avg_temp_c wx with
         | Some t =>
             js "- Weather (7d): " ++ numToString H t ++ js "°C avg, " ++
             numToString H (precipOrZero (total_precipitation_mm wx)) ++
             js "mm precip" ++ nl ++
             js "- Wind (7d): avg " ++ windStr H (avg_wind_speed_max_kmh wx) ++
             js ", gusts " ++ windStr H (max_wind_gust_kmh wx) ++ nl
         | None => []
         end
     | None => []
     end ++ nl ++
     repeat_str (js "─") 60 ++ nl ++ nl ++
     strategy d ++ nl ++ nl ++
     repeat_str (js "─") 60 ++ nl ++
     js "Data: Real terrain from OpenStreetMap + Open-Meteo Elevation API + Nominatim")
    None (Some (js "coordinate_tactical")) /\
  includes (text (tacticalResponse H d)) (js "- Elevation: Unknown" ++ nl) = true /\
  isThinking (st (handleSendMessage H B w)) = false.
Proof.
  intros input td coords Hne Hc Hr Hs Hd He.
  assert (Hst : st (handleSendMessage H B w) =
                st (setIsThinking false
                      (appendMessage (tacticalResponse H d)
                         (World (State (messages (st w) ++
                                          [Message User input None None])
                                       [] (uploadedFile (st w))
                                       (isUploading (st w)) true
                                       (systemHealth (st w)) (showHealth (st w))
                                       (scenario (st w)))
                                (trace w ++
                                   [PostAnalyzeCoordinates input (scenario (st w))])
                                (fileInputValue w))))).
  { rewrite handleSendMessage_analyze by assumption.
    fold input. rewrite Hr. simpl. rewrite Hs, Hd. reflexivity. }
  split; [|split; [|split]].
  - rewrite Hst. simpl. rewrite <- app_assoc. reflexivity.
  - unfold tacticalResponse. fold td. rewrite He.
    unfold elevationStr, coordStr, yesNo, banner, rule, countryLine, weatherLine.
    fold coords.
    rewrite (app_assoc (js "- Elevation: ") (js "Unknown")).
    change (js "- Elevation: " ++ js "Unknown") with (js "- Elevation: Unknown").
    reflexivity.
  - apply includes_occurs.
    unfold tacticalResponse, text. fold td. rewrite He. unfold elevationStr.
    seek (js "- Elevation: ") ltac:(apply occursIn_head3; vm_compute; reflexivity).
  - rewrite Hst. reflexivity.
Qed.

Lemma null_elevation_still_reports_witness :
  messages (st (handleSendMessage Engine.engine answering
                  (typing decimalExample initialWorld))) =
  [Message User decimalExample None None;
   tacticalResponse Engine.engine parisAnalysis].
Proof.
  apply (null_elevation_still_reports Engine.engine answering
           (typing decimalExample initialWorld)
           (AnalyzeData true Undefined (Some parisAnalysis)) parisAnalysis).
  - vm_compute. discriminate.
  - vm_compute. reflexivity.
  - vm_compute. reflexivity.
  - reflexivity.
  - reflexivity.
  - reflexivity.
Defined.

(** The wind fields and the temperature do get an explicit marker: a
    null wind value prints as [N/A], and without a temperature the
    weather lines are left out. *)
Lemma weather_unknown_markers (H : host) (p w g : option number) :
  windStr H None = js "N/A" /\
  weatherLine H (Some (Weather None p w g)) = [] /\
  weatherLine H None = [].
Proof. repeat split. Qed.

(** C2.  With a temperature present, a null [total_precipitation_mm] is
    printed exactly as a measured precipitation of 0 would be: the text
    carries the number 0 followed by [mm precip], and no unknown marker
    for the field. *)
Theorem null_precipitation_printed_as_zero (H : host) (t : number)
        (wind gust : option number) :
  weatherLine H (Some (Weather (Some t) None wind gust)) =
  weatherLine H (Some (Weather (Some t) (Some (ofZ 0)) wind gust)) /\
  includes (weatherLine H (Some (Weather (Some t) None wind gust)))
           (numToString H (ofZ 0) ++ js "mm precip") = true /\
  weatherLine Engine.engine (Some (Weather (Some (ofZ 12)) None None None)) =
  js "- Weather (7d): 12°C avg, 0mm precip" ++ nl ++
  js "- Wind (7d): avg N/A, gusts N/A" ++ nl.
Proof.
  split; [reflexivity|]. split; [|vm_compute; reflexivity].
  apply includes_occurs.
  unfold weatherLine, avg_temp_c, total_precipitation_mm, precipOrZero.
  seek (numToString H (ofZ 0)) ltac:(apply occursIn_head2; reflexivity).
Qed.

(** ** [handleFileUpload] *)

Section FileUpload.

Variable H : host.
Variable B : backend.

Lemma invalidFilesOf_In (files : list file) (f : file) :
  In f (invalidFilesOf H files) <->
  In f files /\ hasExtension H allowedTypes f = false.
Proof.
  unfold invalidFilesOf. rewrite filter_In, negb_true_iff. reflexivity.
Qed.

Lemma invalidTypeMessage_lists (invalid : list file) (f : file) :
  In f invalid ->
  includes (text (invalidTypeMessage invalid)) (name f) = true.
Proof.
  intros Hin. apply includes_occurs.
  unfold invalidTypeMessage, systemMessage, text.
  apply occursIn_app_r, occursIn_app_l, occursIn_join, in_map, Hin.
Qed.

End FileUpload.

(** C10.  When some file of the selection has a name that, lower-cased,
    ends in none of the accepted extensions, [handleFileUpload] rejects
    the whole selection: it appends one system error message that lists
    the name of every invalid file, clears the file input, and issues no
    request at all, so none of the files is uploaded. *)
Theorem invalid_selection_is_rejected (H : host) (B : backend)
        (files : list file) (w : world) (f : file) :
  In f files ->
  hasExtension H allowedTypes f = false ->
  let m := invalidTypeMessage (invalidFilesOf H files) in
  handleFileUpload H B files w = clearFileInput (appendMessage m w) /\
  trace (handleFileUpload H B files w) = trace w /\
  msg_role m = System /\
  isError m = Some true /\
  forall g, In g files -> hasExtension H allowedTypes g = false ->
            includes (text m) (name g) = true.
Proof.
  intros Hin Hbad m.
  assert (Hrej : handleFileUpload H B files w = clearFileInput (appendMessage m w)).
  { subst m. unfold handleFileUpload.
    destruct files as [|first rest]; [destruct Hin|].
    assert (Hinv : In f (invalidFilesOf H (first :: rest)))
      by (apply invalidFilesOf_In; split; assumption).
    destruct (invalidFilesOf H (first :: rest)) as [|g gs];
      [destruct Hinv|].
    reflexivity. }
  split; [exact Hrej|]. split; [rewrite Hrej; reflexivity|].
  split; [reflexivity|]. split; [reflexivity|].
  intros g Hg Hgbad. apply invalidTypeMessage_lists.
  apply invalidFilesOf_In. split; assumption.
Qed.

Lemma invalid_selection_is_rejected_witness :
  let files := [File (js "route.PDF"); File (js "notes.txt")] in
  let m := invalidTypeMessage (invalidFilesOf Engine.engine files) in
  handleFileUpload Engine.engine offline files initialWorld =
  clearFileInput (appendMessage m initialWorld) /\
  trace (handleFileUpload Engine.engine offline files initialWorld) =
  trace initialWorld /\
  msg_role m = System /\
  isError m = Some true /\
  forall g, In g files -> hasExtension Engine.engine allowedTypes g = false ->
            includes (text m) (name g) = true.
Proof.
  apply (invalid_selection_is_rejected Engine.engine offline
           [File (js "route.PDF"); File (js "notes.txt")] initialWorld
           (File (js "notes.txt"))).
  - simpl. right. left. reflexivity.
  - vm_compute. reflexivity.
Defined.

(** A selection of accepted documents does reach the upload endpoint. *)
Lemma valid_selection_is_uploaded :
  trace (handleFileUpload Engine.engine offline
           [File (js "route.PDF"); File (js "orders.pdf")] initialWorld) =
  [PostUpload (File (js "route.PDF")); PostUpload (File (js "orders.pdf"));
   GetHealth].
Proof. vm_compute. reflexivity. Qed.

(** ** [renderInlineFormatting] *)

Section InlineFormatting.

Import Inline.
Local Open Scope nat_scope.

Lemma shift_whole (o : option regexMatch) (m : regexMatch) :
  shift <$> o = Some m -> exists m', o = Some m' /\ whole m = whole m'.
Proof.
  destruct o as [m'|]; simpl; [|discriminate].
  intros [= <-]. exists m'. split; reflexivity.
Qed.

Lemma boldBody_length (s cap : jsstring) :
  boldBody s = Some cap -> 1 <= length cap.
Proof.
  destruct s as [|c t]; cbn [boldBody]; [discriminate|].
  destruct (isLineTerminator c); [discriminate|].
  destruct (startsWith t [star; star]); [intros [= <-]; simpl; lia|].
  destruct (boldBody t); [|discriminate]. intros [= <-]. simpl. lia.
Qed.

Lemma boldHere_length (s : jsstring) (m : regexMatch) :
  boldHere s = Some m -> 5 <= length (whole m).
Proof.
  unfold boldHere. destruct (startsWith s [star; star]); [|discriminate].
  destruct (boldBody (drop 2 s)) as [cap|] eqn:E; [|discriminate].
  intros [= <-]. apply boldBody_length in E.
  simpl. rewrite length_app. simpl. lia.
Qed.

(** Every match of the bold pattern spans at least five code units. *)
Lemma boldMatch_length (s : jsstring) (m : regexMatch) :
  boldMatch s = Some m -> 5 <= length (whole m).
Proof.
  revert m. induction s as [|c s IH]; intros m; cbn [boldMatch].
  - discriminate.
  - destruct (boldHere (c :: s)) eqn:E.
    + intros [= <-]. exact (boldHere_length _ _ E).
    + intros Hm. apply shift_whole in Hm as (m' & Hm' & ->).
      exact (IH _ Hm').
Qed.

Lemma italicBody_length (s cap : jsstring) :
  italicBody s = Some cap -> 1 <= length cap.
Proof.
  destruct s as [|c t]; cbn [italicBody]; [discriminate|].
  destruct (isLineTerminator c); [discriminate|].
  destruct (_ && _); [intros [= <-]; simpl; lia|].
  destruct (italicBody t); [|discriminate]. intros [= <-]. simpl. lia.
Qed.

Lemma italicHere_length (prev : option N) (s : jsstring) (m : regexMatch) :
  italicHere prev s = Some m -> 3 <= length (whole m).
Proof.
  unfold italicHere. destruct s as [|c s1]; [discriminate|].
  destruct (_ && _); [|discriminate].
  destruct (italicBody s1) as [cap|] eqn:E; [|discriminate].
  intros [= <-]. apply italicBody_length in E.
  simpl. rewrite length_app. simpl. lia.
Qed.

Lemma italicFrom_length (prev : option N) (s : jsstring) (m : regexMatch) :
  italicFrom prev s = Some m -> 3 <= length (whole m).
Proof.
  revert prev m. induction s as [|c s IH]; intros prev m; cbn [italicFrom].
  - discriminate.
  - destruct (italicHere prev (c :: s)) eqn:E.
    + intros [= <-]. exact (italicHere_length _ _ _ E).
    + intros Hm. apply shift_whole in Hm as (m' & Hm' & ->).
      exact (IH _ _ Hm').
Qed.

(** The matchers report a real occurrence. *)
Lemma shift_matchedAt (c : N) (s : jsstring) (m : regexMatch) :
  matchedAt s m -> matchedAt (c :: s) (shift m).
Proof.
  intros (pre & post & -> & Hlen). exists (c :: pre), post.
  split; [reflexivity|]. simpl. rewrite Hlen. reflexivity.
Qed.

Lemma boldBody_sound (s cap : jsstring) :
  boldBody s = Some cap -> exists post, s = cap ++ [star; star] ++ post.
Proof.
  revert cap. induction s as [|c t IH]; intros cap; cbn [boldBody];
    [discriminate|].
  destruct (isLineTerminator c); [discriminate|].
  destruct (startsWith t [star; star]) eqn:Es.
  - intros [= <-]. apply startsWith_inv in Es as [post ->].
    exists post. reflexivity.
  - destruct (boldBody t) as [cap'|]; [|discriminate]. intros [= <-].
    destruct (IH _ eq_refl) as [post ->]. exists post. reflexivity.
Qed.

Lemma boldMatch_sound (s : jsstring) (m : regexMatch) :
  boldMatch s = Some m -> matchedAt s m.
Proof.
  assert (Hhere : forall t m', boldHere t = Some m' -> matchedAt t m').
  { intros t m'. unfold boldHere.
    destruct (startsWith t [star; star]) eqn:Es; [|discriminate].
    apply startsWith_inv in Es as [r ->].
    destruct (boldBody _) as [cap|] eqn:Eb; [|discriminate].
    intros [= <-]. apply boldBody_sound in Eb as [post Hpost].
    simpl in Hpost. rewrite drop_0 in Hpost. subst r.
    exists [], post. split; [|reflexivity].
    simpl. rewrite <- app_assoc. reflexivity. }
  revert m. induction s as [|c s IH]; intros m; cbn [boldMatch].
  - discriminate.
  - destruct (boldHere (c :: s)) eqn:E.
    + intros [= <-]. exact (Hhere _ _ E).
    + destruct (boldMatch s) as [m'|]; [|discriminate].
      intros [= <-]. apply shift_matchedAt, IH. reflexivity.
Qed.

Lemma italicBody_sound (s cap : jsstring) :
  italicBody s = Some cap -> exists post, s = cap ++ [star] ++ post.
Proof.
  revert cap. induction s as [|c t IH]; intros cap; cbn [italicBody];
    [discriminate|].
  destruct (isLineTerminator c); [discriminate|].
  destruct (negb (c =? star)%N && closingStar t) eqn:Es.
  - intros [= <-]. apply andb_prop in Es as [_ Es].
    destruct t as [|d post]; [discriminate|]. simpl in Es.
    apply andb_prop in Es as [Ed _]. apply N.eqb_eq in Ed. subst d.
    exists post. reflexivity.
  - destruct (italicBody t) as [cap'|]; [|discriminate]. intros [= <-].
    destruct (IH _ eq_refl) as [post ->]. exists post. reflexivity.
Qed.

Lemma italicMatch_sound (s : jsstring) (m : regexMatch) :
  italicMatch s = Some m -> matchedAt s m.
Proof.
  assert (Hhere : forall prev t m', italicHere prev t = Some m' -> matchedAt t m').
  { intros prev t m'. unfold italicHere. destruct t as [|c s1]; [discriminate|].
    destruct (_ && (c =? star)%N && _) eqn:Es; [|discriminate].
    apply andb_prop in Es as [Es _]. apply andb_prop in Es as [_ Ec].
    apply N.eqb_eq in Ec. subst c.
    destruct (italicBody s1) as [cap|] eqn:Eb; [|discriminate].
    intros [= <-]. apply italicBody_sound in Eb as [post ->].
    exists [], post. split; [|reflexivity].
    simpl. rewrite <- app_assoc. reflexivity. }
  unfold italicMatch. generalize (@None N). revert m.
  induction s as [|c s IH]; intros m prev; cbn [italicFrom].
  - discriminate.
  - destruct (italicHere prev (c :: s)) eqn:E.
    + intros [= <-]. exact (Hhere _ _ _ E).
    + destruct (italicFrom (Some c) s) as [m'|] eqn:Em; [|discriminate].
      intros [= <-]. apply shift_matchedAt, (IH _ _ Em).
Qed.

(** Whichever match is picked, it has positive length. *)
Lemma pick_length (s : jsstring) (m : regexMatch) (k : kind) :
  pick s = Some (m, k) -> 3 <= length (whole m).
Proof.
  unfold pick, italicMatch.
  destruct (boldMatch s) as [b|] eqn:Eb;
    destruct (italicFrom None s) as [i|] eqn:Ei;
    try discriminate.
  - destruct (index b <=? index i)%nat; intros [= <- <-].
    + apply boldMatch_length in Eb. lia.
    + exact (italicFrom_length _ _ _ Ei).
  - intros [= <- <-]. apply boldMatch_length in Eb. lia.
  - intros [= <- <-]. exact (italicFrom_length _ _ _ Ei).
Qed.

(** A pass that does not break leaves strictly less text. *)
Lemma body_shrinks (s s' : loopState) :
  remaining s <> [] ->
  body s = inl s' ->
  length (remaining s') < length (remaining s).
Proof.
  intros Hne. unfold body.
  destruct (pick (remaining s)) as [[m k]|] eqn:E; [|discriminate].
  apply pick_length in E.
  destruct (take (index m) (remaining s)); intros [= <-]; simpl;
    unfold afterMatch; rewrite length_drop;
    (destruct (remaining s); [congruence|simpl; lia]).
Qed.

Lemma loop_total (fuel : nat) (s : loopState) :
  length (remaining s) <= fuel -> exists ps, loop fuel s = Some ps.
Proof.
  revert s. induction fuel as [|fuel IH]; intros s Hlen.
  - destruct s as [[|c r] k ps]; simpl in *; [eauto|lia].
  - simpl. destruct (remaining s) as [|c r] eqn:Er; [eauto|].
    destruct (body s) as [s'|ps] eqn:Eb; [|eauto].
    apply IH. apply body_shrinks in Eb; [|rewrite Er; discriminate].
    rewrite Er in Eb. simpl in *. lia.
Qed.

Lemma loop_more_fuel (fuel fuel' : nat) (s : loopState) (ps : list part) :
  loop fuel s = Some ps -> fuel <= fuel' -> loop fuel' s = Some ps.
Proof.
  revert fuel' s. induction fuel as [|fuel IH]; intros fuel' s Hl Hle.
  - destruct fuel'; simpl in *; destruct (remaining s); congruence.
  - destruct fuel' as [|fuel']; [lia|]. simpl in *.
    destruct (remaining s); [exact Hl|].
    destruct (body s); [|exact Hl]. apply IH; [exact Hl|lia].
Qed.

End InlineFormatting.

(** C8.  [renderInlineFormatting] terminates on every string: a pass of
    its loop that does not break leaves strictly less remaining text,
    and a number of passes equal to the length of the text is enough for
    the function to return, with a result that more passes do not
    change. *)
Theorem renderInlineFormatting_terminates :
  (forall s s',
      Inline.remaining s <> [] ->
      Inline.body s = inl s' ->
      (length (Inline.remaining s') < length (Inline.remaining s))%nat) /\
  (forall t, exists r,
      forall fuel, (length t <= fuel)%nat ->
                   Inline.renderInlineFormatting fuel t = Some r).
Proof.
  split; [exact body_shrinks|].
  intros t. destruct t as [|c t'].
  - exists Inline.RNull. reflexivity.
  - destruct (loop_total (length (c :: t')) (Inline.LoopState (c :: t') 0 []))
      as [ps Hps]; [reflexivity|].
    exists (match ps with [] => Inline.RText (c :: t') | _ => Inline.RParts ps end).
    intros fuel Hfuel. unfold Inline.renderInlineFormatting.
    rewrite (loop_more_fuel _ fuel _ _ Hps Hfuel).
    destruct ps; reflexivity.
Qed.

Lemma renderInlineFormatting_terminates_witness :
  (length (js " e *f* g") < length (js "a **b** e *f* g"))%nat /\
  exists r, Inline.renderInlineFormatting 15 (js "a **b** e *f* g") = Some r.
Proof.
  split.
  - apply (proj1 renderInlineFormatting_terminates
             (Inline.LoopState (js "a **b** e *f* g") 0 [])
             (Inline.LoopState (js " e *f* g") 2
                [Inline.Span 0 (js "a "); Inline.Strong 1 (js "b")])).
    + vm_compute. discriminate.
    + vm_compute. reflexivity.
  - destruct (proj2 renderInlineFormatting_terminates (js "a **b** e *f* g"))
      as [r Hr].
    exists r. apply Hr. vm_compute. reflexivity.
Defined.

(** ** Terrain cache *)

Section CacheProperties.

Import TerrainCache.
Local Open Scope Z_scope.

Variable bundle : Type.
Variable fetchPipeline : Z -> analysisArea -> bundle.
Variable round : Q -> Z.

Local Abbreviation analyze := (analyze bundle fetchPipeline round).
Local Abbreviation areaKey := (areaKey round).

(** After a call the store holds, under the area's key, the entry the
    call returned. *)
Lemma analyze_stores (now : Z) (a : analysisArea) (c : cache bundle) :
  entries _ (analyze now a c).2 !! areaKey a = Some (analyze now a c).1.
Proof.
  unfold TerrainCache.analyze.
  destruct (entries _ c !! areaKey a) as [e|] eqn:E.
  - destruct (age _ now e <? ttl); simpl; [exact E|].
    apply lookup_insert_eq.
  - simpl. apply lookup_insert_eq.
Qed.

Lemma analyze_hit (now : Z) (a : analysisArea) (c : cache bundle)
      (e : cacheEntry bundle) :
  entries _ c !! areaKey a = Some e ->
  age _ now e < ttl ->
  analyze now a c = (e, c).
Proof.
  intros He Hage. unfold TerrainCache.analyze. rewrite He.
  destruct (Z.ltb_spec (age _ now e) ttl); [reflexivity|lia].
Qed.

Lemma analyze_expired (now : Z) (a : analysisArea) (c : cache bundle)
      (e : cacheEntry bundle) :
  entries _ c !! areaKey a = Some e ->
  ttl <= age _ now e ->
  (analyze now a c).1 = CacheEntry _ (areaKey a) (fetchPipeline now a) now /\
  fetches _ (analyze now a c).2 = fetches _ c ++ [(now, a)].
Proof.
  intros He Hage. unfold TerrainCache.analyze. rewrite He.
  destruct (Z.ltb_spec (age _ now e) ttl); [lia|]. split; reflexivity.
Qed.

Lemma analyze_cold (now : Z) (a : analysisArea) (c : cache bundle) :
  entries _ c !! areaKey a = None ->
  (analyze now a c).1 = CacheEntry _ (areaKey a) (fetchPipeline now a) now /\
  fetches _ (analyze now a c).2 = fetches _ c ++ [(now, a)].
Proof.
  intros He. unfold TerrainCache.analyze. rewrite He. split; reflexivity.
Qed.

End CacheProperties.

(** C4.  Two [analyze] calls for the same area identity, at [t1] and
    then at [t2].  While the age of the entry returned by the first call
    is below one hour, the second call returns that very entry (same
    bundle, same [created_at]) and leaves the store and the fetch log
    untouched.  Once the age has reached one hour, the second call runs
    the pipeline, stores the new entry under the same key, and its
    [created_at] is [t2], later than the old one.  When the first call
    found no entry, its [created_at] is [t1], so the age is the time
    elapsed since the first call. *)
Theorem cache_reuse_then_refresh (bundle : Type)
        (fetchPipeline : Z -> TerrainCache.analysisArea -> bundle)
        (round : Q -> Z) (c : TerrainCache.cache bundle)
        (a a' : TerrainCache.analysisArea) (t1 t2 : Z) :
  let analyze := TerrainCache.analyze bundle fetchPipeline round in
  let key := TerrainCache.areaKey round in
  let first := analyze t1 a c in
  let second := analyze t2 a' first.2 in
  let created := TerrainCache.created_at bundle in
  let fetches := TerrainCache.fetches bundle in
  key a = key a' ->
  (TerrainCache.entries bundle c !! key a = None ->
   created first.1 = t1 /\ fetches first.2 = fetches c ++ [(t1, a)]) /\
  ((t2 - created first.1 < TerrainCache.ttl)%Z ->
   second.1 = first.1 /\ second.2 = first.2) /\
  ((TerrainCache.ttl <= t2 - created first.1)%Z ->
   fetches second.2 = fetches first.2 ++ [(t2, a')] /\
   TerrainCache.entries bundle second.2 !! key a = Some second.1 /\
   TerrainCache.value bundle second.1 = fetchPipeline t2 a' /\
   created second.1 = t2 /\
   (created first.1 < created second.1)%Z).
Proof.
  intros analyze key first second created fetches Hkey.
  pose proof (analyze_stores bundle fetchPipeline round t1 a c) as Hstored.
  fold analyze key first in Hstored. rewrite Hkey in Hstored.
  split; [|split].
  - intros Hcold.
    destruct (analyze_cold bundle fetchPipeline round t1 a c Hcold) as [He Hf].
    fold analyze first in He, Hf. subst created fetches.
    rewrite He, Hf. split; reflexivity.
  - intros Hage.
    pose proof (analyze_hit bundle fetchPipeline round t2 a' first.2 first.1
                  Hstored Hage) as Hhit.
    fold analyze second in Hhit. rewrite Hhit. split; reflexivity.
  - intros Hage.
    destruct (analyze_expired bundle fetchPipeline round t2 a' first.2 first.1
                Hstored Hage) as [He Hf].
    fold analyze second in He, Hf.
    pose proof (analyze_stores bundle fetchPipeline round t2 a' first.2) as Hs2.
    fold analyze key second in Hs2. rewrite <- Hkey in Hs2.
    subst created fetches. rewrite He in *. simpl.
    split; [exact Hf|]. split; [exact Hs2|]. split; [reflexivity|].
    split; [reflexivity|].
    unfold TerrainCache.ttl in Hage. lia.
Qed.

Lemma cache_reuse_then_refresh_witness :
  let analyze := TerrainCache.analyze Z stampPipeline round4 in
  let first := analyze 0%Z paris emptyCache in
  (analyze 1800%Z paris first.2).1 = first.1 /\
  TerrainCache.created_at Z (analyze 3600%Z paris first.2).1 = 3600%Z.
Proof.
  split.
  - apply (proj1 (proj2 (cache_reuse_then_refresh Z stampPipeline round4
                           emptyCache paris paris 0 1800 eq_refl))).
    vm_compute. reflexivity.
  - apply (proj2 (proj2 (cache_reuse_then_refresh Z stampPipeline round4
                           emptyCache paris paris 0 3600 eq_refl))).
    vm_compute. discriminate.
Defined.

(** ** Scenario detector *)

Section DetectorProperties.

Import ScenarioDetector.
Local Open Scope nat_scope.

Variable keywords : scenarioClass -> list jsstring.

Local Abbreviation score := (score keywords).
Local Abbreviation detect := (detect keywords).

Ltac compare_scores msg :=
  repeat match goal with
    | |- context [score ?x msg <? score ?y msg] =>
        lazymatch x with
        | (if _ then _ else _) => fail
        | _ => destruct (Nat.ltb_spec (score x msg) (score y msg)); cbv iota
        end
    | |- context [score ?x msg =? 0] =>
        lazymatch x with
        | (if _ then _ else _) => fail
        | _ => destruct (Nat.eqb_spec (score x msg) 0); cbv iota
        end
    end.

Lemma detect_highest (msg : jsstring) (c : scenarioClass) :
  score c msg <= score (detect msg) msg.
Proof.
  unfold ScenarioDetector.detect, better. cbn [fold_left].
  compare_scores msg; destruct c; lia.
Qed.

Lemma detect_default (msg : jsstring) :
  (forall c, score c msg = 0) -> detect msg = reconnaissance.
Proof.
  intros Hzero. unfold ScenarioDetector.detect, better. cbn [fold_left].
  compare_scores msg; try reflexivity;
    match goal with Hn : score ?x msg <> 0 |- _ => destruct (Hn (Hzero x)) end.
Qed.

Lemma detect_priority (msg : jsstring) (c : scenarioClass) :
  score c msg = score (detect msg) msg ->
  0 < score c msg ->
  priority (detect msg) <= priority c.
Proof.
  unfold ScenarioDetector.detect, better. cbn [fold_left].
  compare_scores msg; destruct c; simpl; lia.
Qed.

End DetectorProperties.

(** C5.  The detector returns a class of highest keyword score; it
    returns [reconnaissance] when no keyword of any class matches; and
    among classes that tie on a positive highest score it returns the
    first in the order defensive, offensive, stability, reconnaissance. *)
Theorem detect_highest_default_priority
        (keywords : ScenarioDetector.scenarioClass -> list jsstring)
        (msg : jsstring) :
  let score c := ScenarioDetector.score keywords c msg in
  let detected := ScenarioDetector.detect keywords msg in
  (forall c, (score c <= score detected)%nat) /\
  ((forall c, score c = 0%nat) -> detected = ScenarioDetector.reconnaissance) /\
  (forall c, score c = score detected -> (0 < score c)%nat ->
             (ScenarioDetector.priority detected <= ScenarioDetector.priority c)%nat).
Proof.
  intros score detected. split; [|split].
  - exact (detect_highest keywords msg).
  - exact (detect_default keywords msg).
  - exact (detect_priority keywords msg).
Qed.

(** The three messages of the documentation, on the example keywords. *)
Lemma detect_examples :
  ScenarioDetector.detect exampleKeywords (js "defend the ridge, engagement area") =
  ScenarioDetector.defensive /\
  ScenarioDetector.detect exampleKeywords (js "where can we breach the obstacle belt") =
  ScenarioDetector.offensive /\
  ScenarioDetector.detect exampleKeywords (js "what is the weather") =
  ScenarioDetector.reconnaissance.
Proof. repeat split; vm_compute; reflexivity. Qed.

Lemma detect_highest_default_priority_witness :
  ScenarioDetector.detect exampleKeywords (js "what is the weather") =
  ScenarioDetector.reconnaissance /\
  (ScenarioDetector.priority
     (ScenarioDetector.detect exampleKeywords (js "defend, then breach")) <=
   ScenarioDetector.priority ScenarioDetector.offensive)%nat.
Proof.
  split.
  - apply (proj1 (proj2 (detect_highest_default_priority exampleKeywords
                           (js "what is the weather")))).
    intros c. destruct c; vm_compute; reflexivity.
  - apply (proj2 (proj2 (detect_highest_default_priority exampleKeywords
                           (js "defend, then breach")))).
    + vm_compute. reflexivity.
    + vm_compute. lia.
Defined.

(** * Further properties of the front end *)

(** ** [handleSendMessage], whatever the server does *)

(** X1.  A non-blank send always ends the same way, whatever the
    server answers or fails to answer: the messages are the history,
    the user's message and exactly one reply that is not a user
    message; the input is emptied; [isThinking] is false again; and the
    loaded-file name, [isUploading], [showHealth], the scenario and the
    file input are as they were. *)
Theorem send_message_frame (H : host) (B : backend) (w : world) :
  let input := inputValue (st w) in
  let w' := handleSendMessage H B w in
  trim input <> [] ->
  (exists reply,
      messages (st w') =
      messages (st w) ++ [Message User input None None; reply] /\
      msg_role reply <> User) /\
  inputValue (st w') = [] /\
  isThinking (st w') = false /\
  uploadedFile (st w') = uploadedFile (st w) /\
  isUploading (st w') = isUploading (st w) /\
  showHealth (st w') = showHealth (st w) /\
  scenario (st w') = scenario (st w) /\
  fileInputValue w' = fileInputValue w.
Proof.
  intros input w' Hne. subst w'. unfold handleSendMessage.
  fold input. rewrite bool_decide_eq_false_2 by exact Hne.
  destruct (hasCoordinates input).
  - cbn [text]. unfold onAnalyzeAnswer.
    destruct (analyze_endpoint B _ input _) as [|ok|ok data];
      [| |destruct (ok && a_success data); [destruct (a_result data)|]];
      (split; [eexists; split;
                 [simpl; rewrite <- app_assoc; reflexivity|discriminate]|]);
      repeat split.
  - cbn [text]. unfold onChatAnswer.
    destruct (chat_endpoint B _ input) as [|ok|ok data];
      [| |destruct (ok && c_success data)];
      (split; [eexists; split;
                 [simpl; rewrite <- app_assoc; reflexivity|discriminate]|]);
      repeat split.
Qed.

Lemma send_message_frame_witness :
  isThinking (st (handleSendMessage Engine.engine offline
                    (typing decimalExample initialWorld))) = false.
Proof.
  apply (send_message_frame Engine.engine offline
           (typing decimalExample initialWorld)).
  vm_compute. discriminate.
Defined.

(** ** The coordinate detector *)

Lemma fourDigits_inv (s : jsstring) :
  CoordPattern.fourDigits s = true ->
  exists a b c d post,
    s = a :: b :: c :: d :: post /\
    CoordPattern.isDigit a = true /\ CoordPattern.isDigit b = true /\
    CoordPattern.isDigit c = true /\ CoordPattern.isDigit d = true.
Proof.
  destruct s as [|a [|b [|c [|d post]]]]; simpl; try discriminate.
  intros Hd. apply andb_prop in Hd as [Hd Hd4].
  apply andb_prop in Hd as [Hd Hd3]. apply andb_prop in Hd as [Hd1 Hd2].
  exists a, b, c, d, post. repeat split; assumption.
Qed.

Lemma fraction_inv (s : jsstring) :
  CoordPattern.fraction s = true ->
  exists a b c d post,
    s = CoordPattern.dot :: a :: b :: c :: d :: post /\
    CoordPattern.isDigit a = true /\ CoordPattern.isDigit b = true /\
    CoordPattern.isDigit c = true /\ CoordPattern.isDigit d = true.
Proof.
  destruct s as [|x s]; simpl; [discriminate|].
  intros Hf. apply andb_prop in Hf as [Hx Hf]. apply N.eqb_eq in Hx. subst x.
  destruct (fourDigits_inv _ Hf) as (a & b & c & d & post & -> & Hd).
  exists a, b, c, d, post. split; [reflexivity|exact Hd].
Qed.

(** The digits-dot-digits shape the detector looks for. *)
Lemma matchHere_inv (s : jsstring) :
  CoordPattern.matchHere s = true ->
  exists pre i a b c d post,
    s = pre ++ i :: CoordPattern.dot :: a :: b :: c :: d :: post /\
    CoordPattern.isDigit i = true /\
    CoordPattern.isDigit a = true /\ CoordPattern.isDigit b = true /\
    CoordPattern.isDigit c = true /\ CoordPattern.isDigit d = true.
Proof.
  unfold CoordPattern.matchHere.
  destruct s as [|x s1]; [discriminate|].
  intros Hm. apply andb_prop in Hm as [Hx Hm].
  destruct s1 as [|y s2]; [discriminate|].
  apply orb_prop in Hm as [Hm|Hm].
  - apply andb_prop in Hm as [Hy Hm].
    destruct s2 as [|z s3]; [discriminate|].
    apply orb_prop in Hm as [Hm|Hm].
    + apply andb_prop in Hm as [Hz Hm].
      destruct (fraction_inv _ Hm) as (a & b & c & d & post & -> & Hd).
      exists [x; y], z, a, b, c, d, post. split; [reflexivity|].
      split; [exact Hz|exact Hd].
    + destruct (fraction_inv _ Hm) as (a & b & c & d & post & E & Hd).
      rewrite E. exists [x], y, a, b, c, d, post. split; [reflexivity|].
      split; [exact Hy|exact Hd].
  - destruct (fraction_inv _ Hm) as (a & b & c & d & post & E & Hd).
    rewrite E. exists [], x, a, b, c, d, post. split; [reflexivity|].
    split; [exact Hx|exact Hd].
Qed.

Lemma dot_not_digit : CoordPattern.isDigit CoordPattern.dot = false.
Proof. reflexivity. Qed.

(** X2.  The detector fires exactly on the texts that contain a digit,
    a dot and four more digits in a row; so a decimal number with
    fewer than four decimals, or a coordinate written without a decimal
    point, is never taken for a coordinate. *)
Theorem coordinates_detected_iff (s : jsstring) :
  hasCoordinates s = true <->
  exists pre i a b c d post,
    s = pre ++ i :: CoordPattern.dot :: a :: b :: c :: d :: post /\
    CoordPattern.isDigit i = true /\
    CoordPattern.isDigit a = true /\ CoordPattern.isDigit b = true /\
    CoordPattern.isDigit c = true /\ CoordPattern.isDigit d = true.
Proof.
  unfold hasCoordinates. split.
  - induction s as [|x s IH]; cbn [CoordPattern.test]; intros Ht.
    + rewrite orb_false_r in Ht. exact (matchHere_inv _ Ht).
    + apply orb_prop in Ht as [Ht|Ht]; [exact (matchHere_inv _ Ht)|].
      destruct (IH Ht) as (pre & i & a & b & c & d & post & -> & Hd).
      exists (x :: pre), i, a, b, c, d, post. split; [reflexivity|exact Hd].
  - intros (pre & i & a & b & c & d & post & -> & Hi & Ha & Hb & Hc & Hd).
    induction pre as [|x pre IH].
    + cbn [app CoordPattern.test]. unfold CoordPattern.matchHere.
      rewrite Hi, dot_not_digit. simpl.
      rewrite Ha, Hb, Hc, Hd. reflexivity.
    + cbn [app CoordPattern.test]. cbn [app] in IH. rewrite IH.
      apply orb_true_r.
Qed.

(** ** [uploadDocument] *)

Section UploadDocument.

Variable H : host.
Variable B : backend.

Lemma checkHealth_trace (w : world) :
  trace (checkHealth B w) = trace w ++ [GetHealth].
Proof. unfold checkHealth. destruct (health_endpoint B _); reflexivity. Qed.

Lemma checkHealth_messages (w : world) :
  messages (st (checkHealth B w)) = messages (st w).
Proof. unfold checkHealth. destruct (health_endpoint B _); reflexivity. Qed.

Lemma checkHealth_frame (w : world) :
  inputValue (st (checkHealth B w)) = inputValue (st w) /\
  uploadedFile (st (checkHealth B w)) = uploadedFile (st w) /\
  isUploading (st (checkHealth B w)) = isUploading (st w) /\
  isThinking (st (checkHealth B w)) = isThinking (st w) /\
  showHealth (st (checkHealth B w)) = showHealth (st w) /\
  scenario (st (checkHealth B w)) = scenario (st w) /\
  fileInputValue (checkHealth B w) = fileInputValue w.
Proof. unfold checkHealth. destruct (health_endpoint B _); repeat split. Qed.

Lemma filter_twice (keep : message -> bool) (l : list message) :
  List.filter keep (List.filter keep l) = List.filter keep l.
Proof.
  induction l as [|m l IH]; simpl; [reflexivity|].
  destruct (keep m) eqn:E; simpl; rewrite ?E, IH; reflexivity.
Qed.

Lemma filter_drops_notice (l : list message) :
  List.filter notProcessingDocument
    (l ++ [systemMessage processingDocument false]) =
  List.filter notProcessingDocument l.
Proof.
  rewrite List.filter_app.
  assert (E : notProcessingDocument (systemMessage processingDocument false) = false)
    by (unfold notProcessingDocument; rewrite bool_decide_eq_true_2; reflexivity).
  cbn [List.filter]. rewrite E. apply app_nil_r.
Qed.

(** The messages left by an upload: the earlier ones without any
    progress notice, then at most one message telling the outcome. *)
Lemma uploadDocument_messages (f : file) (showCompletion : bool) (w : world) :
  let r := uploadDocument H B f showCompletion w in
  exists tail,
    messages (st r.1) =
    List.filter notProcessingDocument (messages (st w)) ++ tail /\
    (r.2 = false ->
     tail = [connectionFailed] \/ exists e, tail = [backendError e]) /\
    (r.2 = true ->
     if showCompletion then exists d, tail = [indexedMessage H f d]
     else tail = []).
Proof.
  unfold uploadDocument, uploadCatch.
  destruct showCompletion;
    destruct (upload_endpoint B _ f) as [|ok|ok data];
    try (destruct (ok && u_success data));
    try (destruct (u_details data) as [d|]);
    cbn [fst snd setIsUploading setUploadedFile appendMessage filterMessages
         onMessages onState emit st messages];
    rewrite ?checkHealth_messages;
    cbn [fst snd setIsUploading setUploadedFile appendMessage filterMessages
         onMessages onState emit st messages];
    rewrite ?filter_twice, ?filter_drops_notice;
    eexists; (split; [try reflexivity; symmetry; apply app_nil_r|]);
    try (split; [intros _|discriminate]);
    try (split; [discriminate|intros _]);
    eauto.
Qed.

Lemma uploadDocument_trace (f : file) (showCompletion : bool) (w : world) :
  let r := uploadDocument H B f showCompletion w in
  trace r.1 = trace w ++ PostUpload f :: (if r.2 then [GetHealth] else []).
Proof.
  unfold uploadDocument, uploadCatch.
  destruct showCompletion;
    destruct (upload_endpoint B _ f) as [|ok|ok data];
    try (destruct (ok && u_success data));
    try (destruct (u_details data) as [d|]);
    cbn [fst snd setIsUploading setUploadedFile appendMessage filterMessages
         onMessages onState emit trace];
    rewrite ?checkHealth_trace;
    cbn [fst snd setIsUploading setUploadedFile appendMessage filterMessages
         onMessages onState emit trace];
    rewrite <- ?app_assoc; reflexivity.
Qed.

Lemma uploadDocument_frame (f : file) (showCompletion : bool) (w : world) :
  let r := uploadDocument H B f showCompletion w in
  isUploading (st r.1) = false /\
  inputValue (st r.1) = inputValue (st w) /\
  isThinking (st r.1) = isThinking (st w) /\
  showHealth (st r.1) = showHealth (st w) /\
  scenario (st r.1) = scenario (st w) /\
  fileInputValue r.1 = fileInputValue w.
Proof.
  unfold uploadDocument, uploadCatch.
  destruct showCompletion;
    destruct (upload_endpoint B _ f) as [|ok|ok data];
    try (destruct (ok && u_success data));
    try (destruct (u_details data) as [d|]);
    cbn [fst snd]; unfold checkHealth;
    try (destruct (health_endpoint B _));
    repeat split.
Qed.

Lemma head_differs (a b rest : jsstring) :
  a <> [] -> hd_error a <> hd_error b -> a ++ rest <> b.
Proof.
  intros Ha Hh E. apply Hh. subst b.
  destruct a; [congruence|reflexivity].
Qed.

Lemma outcome_is_not_notice (m : message) :
  (m = connectionFailed \/ (exists e, m = backendError e) \/
   exists f d, m = indexedMessage H f d) ->
  text m <> processingDocument.
Proof.
  intros [->|[[e ->]|(f & d & ->)]].
  - vm_compute. discriminate.
  - unfold backendError, systemMessage, text.
    apply head_differs; vm_compute; discriminate.
  - unfold indexedMessage, systemMessage, text.
    apply head_differs; vm_compute; discriminate.
Qed.

End UploadDocument.

(** X3.  An upload issues its [/upload] request and nothing else,
    except for one health check after a success; it always ends with
    [isUploading] false, and it leaves the input, [isThinking],
    [showHealth], the scenario and the file input alone. *)
Theorem upload_document_requests (H : host) (B : backend) (f : file)
        (showCompletion : bool) (w : world) :
  let r := uploadDocument H B f showCompletion w in
  trace r.1 = trace w ++ PostUpload f :: (if r.2 then [GetHealth] else []) /\
  isUploading (st r.1) = false /\
  inputValue (st r.1) = inputValue (st w) /\
  isThinking (st r.1) = isThinking (st w) /\
  showHealth (st r.1) = showHealth (st w) /\
  scenario (st r.1) = scenario (st w) /\
  fileInputValue r.1 = fileInputValue w.
Proof.
  intros r. split.
  - exact (uploadDocument_trace H B f showCompletion w).
  - exact (uploadDocument_frame H B f showCompletion w).
Qed.

(** X4.  After an upload no message with the text
    [Processing document...] is left, whatever the outcome: the notice
    the upload itself posted is gone, and so is any earlier message
    that happened to have exactly that text. *)
Theorem upload_document_clears_notice (H : host) (B : backend) (f : file)
        (showCompletion : bool) (w : world) :
  Forall (fun m => text m <> processingDocument)
         (messages (st (uploadDocument H B f showCompletion w).1)).
Proof.
  destruct (uploadDocument_messages H B f showCompletion w)
    as (tail & -> & Hfalse & Htrue).
  apply Forall_app. split.
  - apply List.Forall_forall. intros m Hm. apply List.filter_In in Hm as [_ Hm].
    unfold notProcessingDocument in Hm. apply negb_true_iff in Hm.
    apply bool_decide_eq_false in Hm. exact Hm.
  - destruct (uploadDocument H B f showCompletion w).2.
    + specialize (Htrue eq_refl). destruct showCompletion.
      * destruct Htrue as [d ->]. repeat constructor.
        apply (outcome_is_not_notice H). right. right. eauto.
      * subst tail. constructor.
    + destruct (Hfalse eq_refl) as [->|[e ->]]; repeat constructor;
        apply (outcome_is_not_notice H); eauto.
Qed.

(** X5.  A failed upload is always told in the conversation, also
    when it runs silently inside a batch: when [uploadDocument] returns
    false, the last message is a system message flagged as an error; and
    every earlier message other than a progress notice is kept, in
    order. *)
Theorem upload_document_failure_reported (H : host) (B : backend) (f : file)
        (showCompletion : bool) (w : world) :
  let r := uploadDocument H B f showCompletion w in
  r.2 = false ->
  exists m,
    messages (st r.1) =
    List.filter notProcessingDocument (messages (st w)) ++ [m] /\
    msg_role m = System /\ isError m = Some true.
Proof.
  intros r Hr. subst r.
  destruct (uploadDocument_messages H B f showCompletion w)
    as (tail & Hm & Hfalse & _).
  destruct (Hfalse Hr) as [->|[e ->]]; eexists; (split; [exact Hm|]);
    split; reflexivity.
Qed.

Lemma upload_document_failure_reported_witness :
  exists m,
    messages (st (uploadDocument Engine.engine offline (File (js "a.pdf")) false
                    initialWorld).1) =
    List.filter notProcessingDocument (messages (st initialWorld)) ++ [m] /\
    msg_role m = System /\ isError m = Some true.
Proof.
  apply (upload_document_failure_reported Engine.engine offline
           (File (js "a.pdf")) false initialWorld).
  vm_compute. reflexivity.
Defined.

(** ** [handleFileUpload], the accepted selections *)

Section AcceptedSelections.

Variable H : host.
Variable B : backend.

Lemma uploadsIn_app (a b : list request) :
  uploadsIn (a ++ b) = uploadsIn a ++ uploadsIn b.
Proof. apply flat_map_app. Qed.

Lemma uploadsIn_upload (f : file) (showCompletion : bool) (w : world) :
  uploadsIn (trace (uploadDocument H B f showCompletion w).1) =
  uploadsIn (trace w) ++ [f].
Proof.
  rewrite uploadDocument_trace, uploadsIn_app.
  destruct (uploadDocument H B f showCompletion w).2; reflexivity.
Qed.

Lemma uploadsIn_checkHealth (w : world) :
  uploadsIn (trace (checkHealth B w)) = uploadsIn (trace w).
Proof. rewrite checkHealth_trace, uploadsIn_app. apply app_nil_r. Qed.

(** The batch loop uploads every file once, in order, and counts each
    of them as a success or as a failure. *)
Lemma uploadEach_spec (files : list file) (s f : nat) (w : world) :
  uploadsIn (trace (uploadEach H B files s f w).1.1) =
  uploadsIn (trace w) ++ files /\
  ((uploadEach H B files s f w).1.2 + (uploadEach H B files s f w).2 =
   s + f + length files)%nat /\
  fileInputValue (uploadEach H B files s f w).1.1 = fileInputValue w /\
  (files <> [] -> isUploading (st (uploadEach H B files s f w).1.1) = false).
Proof.
  revert s f w. induction files as [|x files IH]; intros s f w.
  - simpl. rewrite app_nil_r. repeat split; [lia|congruence].
  - cbn [uploadEach].
    pose proof (uploadsIn_upload x false w) as Hu.
    pose proof (uploadDocument_frame H B x false w) as (Hup & _ & _ & _ & _ & Hfi).
    destruct (uploadDocument H B x false w) as [w' ok]. cbn [fst snd] in *.
    destruct ok.
    + destruct (IH (S s) f w') as (Ht & Hc & Hf & Hi).
      rewrite Ht, Hu, Hc, Hf, Hfi, <- app_assoc. cbn [length].
      repeat split; [lia|]. intros _.
      destruct files as [|y files]; [exact Hup|apply Hi; discriminate].
    + destruct (IH s (S f) w') as (Ht & Hc & Hf & Hi).
      rewrite Ht, Hu, Hc, Hf, Hfi, <- app_assoc. cbn [length].
      repeat split; [lia|]. intros _.
      destruct files as [|y files]; [exact Hup|apply Hi; discriminate].
Qed.

End AcceptedSelections.

(** X6.  When every file of the selection is accepted and the first
    one is an image, only that first file is uploaded, however many
    files were selected; the file input is cleared afterwards. *)
Theorem image_selection_uploads_first_only (H : host) (B : backend)
        (first : file) (rest : list file) (w : world) :
  invalidFilesOf H (first :: rest) = [] ->
  hasExtension H imageExtensions first = true ->
  uploadsIn (trace (handleFileUpload H B (first :: rest) w)) =
  uploadsIn (trace w) ++ [first] /\
  fileInputValue (handleFileUpload H B (first :: rest) w) = [].
Proof.
  intros Hvalid Himage. unfold handleFileUpload.
  rewrite Hvalid, Himage. cbn [length Nat.ltb Nat.leb clearFileInput trace
                               fileInputValue].
  split; [|reflexivity].
  rewrite uploadsIn_upload. reflexivity.
Qed.

Lemma image_selection_uploads_first_only_witness :
  uploadsIn (trace (handleFileUpload Engine.engine accepting
                      [File (js "map.PNG"); File (js "orders.pdf")]
                      initialWorld)) =
  uploadsIn (trace initialWorld) ++ [File (js "map.PNG")] /\
  fileInputValue (handleFileUpload Engine.engine accepting
                    [File (js "map.PNG"); File (js "orders.pdf")]
                    initialWorld) = [].
Proof.
  apply (image_selection_uploads_first_only Engine.engine accepting
           (File (js "map.PNG")) [File (js "orders.pdf")] initialWorld).
  - vm_compute. reflexivity.
  - vm_compute. reflexivity.
Defined.

(** X7.  When every file of the selection is accepted and the first
    one is not an image, every selected file is uploaded exactly once,
    in the order of the selection; the file input is cleared; and for
    two or more files the last message is the batch summary, whose two
    counts add up to the number of files. *)
Theorem document_selection_uploads_all (H : host) (B : backend)
        (first : file) (rest : list file) (w : world) :
  let files := first :: rest in
  let w' := handleFileUpload H B files w in
  invalidFilesOf H files = [] ->
  hasExtension H imageExtensions first = false ->
  uploadsIn (trace w') = uploadsIn (trace w) ++ files /\
  fileInputValue w' = [] /\
  isUploading (st w') = false /\
  (rest <> [] ->
   exists successCount failCount,
     (successCount + failCount = length files)%nat /\
     last (messages (st w')) =
     Some (batchSummary H (length files) successCount failCount)).
Proof.
  intros files w' Hvalid Hdoc. subst w' files. unfold handleFileUpload.
  rewrite Hvalid, Hdoc. cbn [length Nat.ltb Nat.leb].
  destruct rest as [|second rest].
  - cbn [length Nat.ltb Nat.leb clearFileInput trace fileInputValue st].
    rewrite uploadsIn_upload.
    pose proof (uploadDocument_frame H B first true w) as (Hup & _).
    repeat split; [exact Hup|congruence].
  - cbn [length Nat.ltb Nat.leb].
    set (w1 := appendMessage _ w).
    pose proof (uploadEach_spec H B (first :: second :: rest) 0 0 w1)
      as (Ht & Hc & Hf & Hi).
    destruct (uploadEach H B (first :: second :: rest) 0 0 w1)
      as [[w2 successCount] failCount].
    cbn [fst snd] in *.
    cbn [clearFileInput trace fileInputValue st].
    rewrite uploadsIn_checkHealth.
    match goal with
    | |- context [checkHealth B ?x] =>
        destruct (checkHealth_frame B x) as (_ & _ & Hup & _)
    end.
    rewrite Hup, checkHealth_messages.
    cbn [appendMessage filterMessages onMessages onState trace st messages
         isUploading].
    repeat split.
    + exact Ht.
    + apply Hi. discriminate.
    + intros _. exists successCount, failCount. split; [exact Hc|].
      apply last_snoc.
Qed.

Lemma document_selection_uploads_all_witness :
  uploadsIn (trace (handleFileUpload Engine.engine accepting
                      [File (js "route.pdf"); File (js "map.png")]
                      initialWorld)) =
  [File (js "route.pdf"); File (js "map.png")].
Proof.
  apply (document_selection_uploads_all Engine.engine accepting
           (File (js "route.pdf")) [File (js "map.png")] initialWorld).
  - vm_compute. reflexivity.
  - vm_compute. reflexivity.
Defined.

(** ** [renderInlineFormatting], what it returns *)

Section InlineResult.

Import Inline.
Local Open Scope nat_scope.

Lemma boldBody_proper (s cap : jsstring) :
  boldBody s = Some cap ->
  cap <> [] /\ forallb (fun u => negb (isLineTerminator u)) cap = true.
Proof.
  revert cap. induction s as [|c t IH]; intros cap; cbn [boldBody];
    [discriminate|].
  destruct (isLineTerminator c) eqn:Ec; [discriminate|].
  destruct (startsWith t [star; star]).
  - intros [= <-]. simpl. rewrite Ec. split; [discriminate|reflexivity].
  - destruct (boldBody t) as [cap'|]; [|discriminate]. intros [= <-].
    destruct (IH _ eq_refl) as [_ Hall]. simpl. rewrite Ec, Hall.
    split; [discriminate|reflexivity].
Qed.

Lemma italicBody_proper (s cap : jsstring) :
  italicBody s = Some cap ->
  cap <> [] /\ forallb (fun u => negb (isLineTerminator u)) cap = true.
Proof.
  revert cap. induction s as [|c t IH]; intros cap; cbn [italicBody];
    [discriminate|].
  destruct (isLineTerminator c) eqn:Ec; [discriminate|].
  destruct (_ && _).
  - intros [= <-]. simpl. rewrite Ec. split; [discriminate|reflexivity].
  - destruct (italicBody t) as [cap'|]; [|discriminate]. intros [= <-].
    destruct (IH _ eq_refl) as [_ Hall]. simpl. rewrite Ec, Hall.
    split; [discriminate|reflexivity].
Qed.

(** What a bold match looks like: its text is its group between two
    pairs of stars, and the group is proper. *)
Lemma boldMatch_shape (s : jsstring) (m : regexMatch) :
  boldMatch s = Some m ->
  whole m = [star; star] ++ group1 m ++ [star; star] /\
  group1 m <> [] /\
  forallb (fun u => negb (isLineTerminator u)) (group1 m) = true.
Proof.
  revert m. induction s as [|c s IH]; intros m; cbn [boldMatch].
  - discriminate.
  - destruct (boldHere (c :: s)) as [m0|] eqn:E.
    + intros [= <-]. unfold boldHere in E.
      destruct (startsWith (c :: s) [star; star]); [|discriminate].
      destruct (boldBody _) as [cap|] eqn:Eb; [|discriminate].
      injection E as <-. split; [reflexivity|].
      exact (boldBody_proper _ _ Eb).
    + destruct (boldMatch s) as [m'|]; [|discriminate].
      intros [= <-]. exact (IH _ eq_refl).
Qed.

Lemma italicFrom_shape (prev : option N) (s : jsstring) (m : regexMatch) :
  italicFrom prev s = Some m ->
  whole m = [star] ++ group1 m ++ [star] /\
  group1 m <> [] /\
  forallb (fun u => negb (isLineTerminator u)) (group1 m) = true.
Proof.
  revert prev m. induction s as [|c s IH]; intros prev m; cbn [italicFrom].
  - discriminate.
  - destruct (italicHere prev (c :: s)) as [m0|] eqn:E.
    + intros [= <-]. unfold italicHere in E.
      destruct (_ && _ && _); [|discriminate].
      destruct (italicBody s) as [cap|] eqn:Eb; [|discriminate].
      injection E as <-. split; [reflexivity|].
      exact (italicBody_proper _ _ Eb).
    + destruct (italicFrom (Some c) s) as [m'|] eqn:Em; [|discriminate].
      intros [= <-]. exact (IH _ _ Em).
Qed.

Lemma matchedAt_split (s : jsstring) (m : regexMatch) :
  matchedAt s m ->
  s = take (index m) s ++ whole m ++ afterMatch s m.
Proof.
  intros (pre & post & -> & Hlen). unfold afterMatch. rewrite <- Hlen.
  rewrite take_app_length, <- drop_drop, drop_app_length.
  rewrite drop_app_length. reflexivity.
Qed.

(** The element pushed for a picked match reads back as the matched
    text, and is proper. *)
Lemma pick_shape (s : jsstring) (m : regexMatch) (k : kind) (key : nat) :
  pick s = Some (m, k) ->
  let element := match k with
                 | Bold => Strong key (group1 m)
                 | Italic => Em key (group1 m)
                 end in
  s = take (index m) s ++ partSource element ++ afterMatch s m /\
  properPart element.
Proof.
  unfold pick, italicMatch.
  destruct (boldMatch s) as [b|] eqn:Eb;
    destruct (italicFrom None s) as [i|] eqn:Ei; try discriminate;
    try (destruct (index b <=? index i));
    intros [= <- <-]; cbn zeta;
    try (destruct (boldMatch_shape _ _ Eb) as (Hw & Hp);
         apply boldMatch_sound, matchedAt_split in Eb;
         rewrite Hw in Eb at 1; split; [exact Eb|exact Hp]);
    (destruct (italicFrom_shape _ _ _ Ei) as (Hw & Hp);
     apply (italicMatch_sound s), matchedAt_split in Ei;
     rewrite Hw in Ei at 1; split; [exact Ei|exact Hp]).
Qed.

Lemma partsSource_app (a b : list part) :
  partsSource (a ++ b) = partsSource a ++ partsSource b.
Proof. unfold partsSource. rewrite map_app, concat_app. reflexivity. Qed.

Lemma keys_length (ps : list part) (k : nat) :
  map partKey ps = seq 0 k -> length ps = k.
Proof.
  intros Hk. rewrite <- (length_map partKey), Hk. apply length_seq.
Qed.

Lemma steady_finished (t : jsstring) (s : loopState) :
  steady t s -> remaining s = [] -> finished t (parts s).
Proof.
  intros (Hsrc & Hkey & Hp) Hr. rewrite Hr, app_nil_r in Hsrc.
  split; [exact Hsrc|]. split; [|exact Hp].
  rewrite (keys_length _ _ Hkey). exact Hkey.
Qed.

Lemma body_steady (t : jsstring) (s : loopState) :
  steady t s -> remaining s <> [] ->
  match body s with
  | inl s' => steady t s'
  | inr ps => finished t ps
  end.
Proof.
  intros (Hsrc & Hkey & Hp) Hne. unfold body.
  destruct (pick (remaining s)) as [[m k]|] eqn:E.
  - destruct (take (index m) (remaining s)) as [|c before] eqn:Et.
    + destruct (pick_shape _ _ _ (key s) E) as (Hs & Hproper).
      rewrite Et in Hs. cbn [app] in Hs.
      split; [|split]; cbn [parts remaining Inline.key].
      * rewrite partsSource_app. unfold partsSource at 2. cbn [map concat].
        rewrite app_nil_r, <- app_assoc, <- Hs. exact Hsrc.
      * rewrite map_app, Hkey, seq_S. destruct k; reflexivity.
      * apply Forall_app. split; [exact Hp|]. constructor; [|constructor].
        exact Hproper.
    + destruct (pick_shape _ _ _ (S (key s)) E) as (Hs & Hproper).
      rewrite Et in Hs.
      split; [|split]; cbn [parts remaining Inline.key].
      * rewrite !partsSource_app. unfold partsSource at 2 3. cbn [map concat].
        rewrite !app_nil_r.
        change (partSource (Span (key s) (c :: before))) with (c :: before).
        rewrite <- !app_assoc, <- Hs. exact Hsrc.
      * rewrite !map_app, Hkey, !seq_S, <- !app_assoc.
        destruct k; reflexivity.
      * apply Forall_app. split; [apply Forall_app; split; [exact Hp|]|];
          constructor; try constructor; [discriminate|exact Hproper].
  - split; [|split].
    + rewrite partsSource_app. unfold partsSource at 2. cbn [map concat partSource].
      rewrite app_nil_r. exact Hsrc.
    + rewrite map_app, Hkey, length_app, (keys_length _ _ Hkey), Nat.add_comm.
      cbn [length map partKey Nat.add]. rewrite seq_S. reflexivity.
    + apply Forall_app. split; [exact Hp|]. constructor; [|constructor].
      exact Hne.
Qed.

Lemma loop_finished (t : jsstring) (fuel : nat) (s : loopState)
      (ps : list part) :
  steady t s -> loop fuel s = Some ps -> finished t ps.
Proof.
  revert s. induction fuel as [|fuel IH]; intros s Hs; cbn [loop].
  - destruct (remaining s) eqn:Er; [|discriminate].
    intros [= <-]. exact (steady_finished t s Hs Er).
  - destruct (remaining s) as [|c r] eqn:Er.
    + intros [= <-]. exact (steady_finished t s Hs Er).
    + pose proof (body_steady t s Hs) as Hb. rewrite Er in Hb.
      specialize (Hb ltac:(discriminate)).
      destruct (body s) as [s'|ps'].
      * apply IH. exact Hb.
      * intros [= <-]. exact Hb.
Qed.

(** The rendering of a non-empty text, with enough passes. *)
Lemma render_finished (t : jsstring) (fuel : nat) :
  t <> [] -> length t <= fuel ->
  exists ps,
    renderInlineFormatting fuel t = Some (RParts ps) /\ finished t ps.
Proof.
  intros Hne Hfuel. destruct t as [|c t']; [congruence|].
  unfold renderInlineFormatting.
  destruct (loop_total fuel (LoopState (c :: t') 0 [])) as [ps Hps];
    [exact Hfuel|].
  assert (Hfin : finished (c :: t') ps).
  { apply (loop_finished _ fuel (LoopState (c :: t') 0 [])); [|exact Hps].
    repeat split. constructor. }
  rewrite Hps. destruct ps as [|p ps].
  - destruct Hfin as (Hsrc & _). discriminate.
  - exists (p :: ps). split; [reflexivity|exact Hfin].
Qed.

Lemma no_star_no_pick (s : jsstring) : ~ In star s -> pick s = None.
Proof.
  intros Hn. unfold pick, italicMatch.
  assert (Hb : boldMatch s = None).
  { induction s as [|c s IH]; [reflexivity|]. cbn [boldMatch].
    unfold boldHere.
    destruct (startsWith (c :: s) [star; star]) eqn:Es.
    - apply startsWith_inv in Es as [r Hr]. injection Hr as -> _.
      destruct Hn. left. reflexivity.
    - rewrite IH; [reflexivity|]. intros Hin. apply Hn. right. exact Hin. }
  assert (Hi : forall prev, italicFrom prev s = None).
  { clear Hb. induction s as [|c s IH]; intros prev; [reflexivity|].
    cbn [italicFrom]. unfold italicHere.
    destruct (N.eqb_spec c star) as [->|_].
    - destruct Hn. left. reflexivity.
    - rewrite andb_false_r. cbn [andb].
      rewrite IH; [reflexivity|]. intros Hin. apply Hn. right. exact Hin. }
  rewrite Hb, Hi. reflexivity.
Qed.

End InlineResult.

(** X8.  Inline rendering loses no text: reading the returned parts
    back, with each [strong] between two pairs of stars and each [em]
    between two stars, gives exactly the text that was rendered. *)
Theorem inline_rendering_keeps_text (t : jsstring) (fuel : nat) :
  (length t <= fuel)%nat ->
  exists r,
    Inline.renderInlineFormatting fuel t = Some r /\ renderedSource r = t.
Proof.
  intros Hfuel. destruct t as [|c t'].
  - exists Inline.RNull. split; reflexivity.
  - destruct (render_finished (c :: t') fuel) as (ps & Hr & Hsrc & _);
      [discriminate|exact Hfuel|].
    exists (Inline.RParts ps). split; [exact Hr|exact Hsrc].
Qed.

Lemma inline_rendering_keeps_text_witness :
  exists r,
    Inline.renderInlineFormatting 30 (js "hold **Hill 402** until *dawn*") =
    Some r /\
    renderedSource r = js "hold **Hill 402** until *dawn*".
Proof.
  apply (inline_rendering_keeps_text (js "hold **Hill 402** until *dawn*") 30).
  vm_compute. lia.
Defined.

(** X9.  The React keys of the returned parts are 0, 1, 2, ... in
    order, so no two parts of one rendering share a key. *)
Theorem inline_keys_count_up (t : jsstring) (fuel : nat) :
  t <> [] ->
  (length t <= fuel)%nat ->
  exists ps,
    Inline.renderInlineFormatting fuel t = Some (Inline.RParts ps) /\
    map partKey ps = seq 0 (length ps).
Proof.
  intros Hne Hfuel.
  destruct (render_finished t fuel Hne Hfuel) as (ps & Hr & _ & Hkeys & _).
  exists ps. split; [exact Hr|exact Hkeys].
Qed.

Lemma inline_keys_count_up_witness :
  exists ps,
    Inline.renderInlineFormatting 30 (js "hold **Hill 402** until *dawn*") =
    Some (Inline.RParts ps) /\
    map partKey ps = seq 0 (length ps).
Proof.
  apply (inline_keys_count_up (js "hold **Hill 402** until *dawn*") 30).
  - vm_compute. discriminate.
  - vm_compute. lia.
Defined.

(** X10.  A non-empty text is always returned as parts, never as the
    bare text, and every part has content: no [span], [strong] or [em]
    is empty, and the text of a [strong] or [em] never runs across a
    line terminator. *)
Theorem inline_parts_are_proper (t : jsstring) (fuel : nat) :
  t <> [] ->
  (length t <= fuel)%nat ->
  exists ps,
    Inline.renderInlineFormatting fuel t = Some (Inline.RParts ps) /\
    ps <> [] /\ Forall properPart ps.
Proof.
  intros Hne Hfuel.
  destruct (render_finished t fuel Hne Hfuel) as (ps & Hr & Hsrc & _ & Hp).
  exists ps. split; [exact Hr|]. split; [|exact Hp].
  intros ->. apply Hne. symmetry. exact Hsrc.
Qed.

Lemma inline_parts_are_proper_witness :
  exists ps,
    Inline.renderInlineFormatting 9 (js "**** a *" ++ nl) =
    Some (Inline.RParts ps) /\
    ps <> [] /\ Forall properPart ps.
Proof.
  apply (inline_parts_are_proper (js "**** a *" ++ nl) 9).
  - vm_compute. discriminate.
  - vm_compute. lia.
Defined.

(** X11.  A text without any star is returned whole, as a single
    [span] with key 0. *)
Theorem plain_text_is_one_span (t : jsstring) (fuel : nat) :
  t <> [] ->
  ~ In Inline.star t ->
  Inline.renderInlineFormatting (S fuel) t =
  Some (Inline.RParts [Inline.Span 0 t]).
Proof.
  intros Hne Hplain. destruct t as [|c t']; [congruence|].
  unfold Inline.renderInlineFormatting. cbn [Inline.loop Inline.remaining].
  unfold Inline.body. cbn [Inline.remaining].
  rewrite (no_star_no_pick _ Hplain). reflexivity.
Qed.

Lemma plain_text_is_one_span_witness :
  Inline.renderInlineFormatting 1 (js "Hold the ridge.") =
  Some (Inline.RParts [Inline.Span 0 (js "Hold the ridge.")]).
Proof.
  apply (plain_text_is_one_span (js "Hold the ridge.") 0).
  - vm_compute. discriminate.
  - vm_compute. intuition discriminate.
Defined.

(** ** [renderMarkdown] *)

Section MarkdownProperties.

Import Markdown.
Local Open Scope nat_scope.

Lemma splitLines_cons (s : jsstring) :
  exists l ls, splitLines s = l :: ls.
Proof.
  induction s as [|c s (l & ls & IH)]; cbn [splitLines]; [eauto|].
  destruct (c =? 10)%N; [eauto|]. rewrite IH. eauto.
Qed.

(** Splitting at the newlines and joining with newlines gives the text
    back. *)
Lemma splitLines_join (s : jsstring) : join nl (splitLines s) = s.
Proof.
  induction s as [|c s IH]; [reflexivity|]. cbn [splitLines].
  destruct (splitLines_cons s) as (l & ls & E). rewrite E in *.
  destruct (N.eqb_spec c 10) as [->|_].
  - change (join nl ([] :: l :: ls)) with ([] ++ nl ++ join nl (l :: ls)).
    rewrite IH. reflexivity.
  - destruct ls as [|l' ls]; cbn [join] in *; rewrite <- IH; reflexivity.
Qed.

Lemma splitLines_length (s : jsstring) :
  length (splitLines s) = S (length (List.filter (N.eqb 10) s)).
Proof.
  induction s as [|c s IH]; [reflexivity|]. cbn [splitLines List.filter].
  destruct (splitLines_cons s) as (l & ls & E). rewrite E in *.
  destruct (N.eqb_spec c 10) as [->|Hc].
  - rewrite N.eqb_refl. cbn [length] in *. lia.
  - replace (10 =? c)%N with false
      by (symmetry; apply N.eqb_neq; congruence).
    cbn [length] in *. lia.
Qed.

Lemma renderLines_length (lines : list jsstring) (k : nat) :
  length (renderLines lines k) = length lines.
Proof.
  revert k. induction lines as [|l lines IH]; intros k; simpl;
    [reflexivity|]. rewrite IH. reflexivity.
Qed.

Lemma renderLine_key (k : nat) (line : jsstring) :
  elementKey (renderLine k line) = k.
Proof.
  unfold renderLine.
  destruct (startsWith line (js "## ")); [reflexivity|].
  destruct (startsWith line (js "### ")); [reflexivity|].
  destruct (isRule line); reflexivity.
Qed.

Lemma renderLines_keys (lines : list jsstring) (k : nat) :
  map elementKey (renderLines lines k) = seq k (length lines).
Proof.
  revert k. induction lines as [|l lines IH]; intros k; [reflexivity|].
  cbn [renderLines map length seq]. rewrite renderLine_key, IH. reflexivity.
Qed.

Lemma renderInline_source (t : jsstring) :
  renderedSource (renderInline t) = t.
Proof.
  unfold renderInline. destruct t as [|c t']; [reflexivity|].
  destruct (render_finished (c :: t') (length (c :: t')))
    as (ps & Hr & Hsrc & _); [discriminate|reflexivity|].
  rewrite Hr. exact Hsrc.
Qed.

Lemma startsWith_drop (line p : jsstring) :
  startsWith line p = true -> p ++ drop (length p) line = line.
Proof.
  intros Hs. apply startsWith_inv in Hs as [r ->].
  rewrite drop_app_length. reflexivity.
Qed.

(** A line that is not a rule reads back from its element. *)
Lemma renderLine_source (k : nat) (line : jsstring) :
  isRule line = false -> elementSource (renderLine k line) = line.
Proof.
  intros Hrule. unfold renderLine.
  destruct (startsWith line (js "## ")) eqn:E2.
  - cbn [elementSource]. rewrite renderInline_source.
    exact (startsWith_drop line (js "## ") E2).
  - destruct (startsWith line (js "### ")) eqn:E3.
    + cbn [elementSource]. rewrite renderInline_source.
      exact (startsWith_drop line (js "### ") E3).
    + rewrite Hrule. cbn [elementSource]. apply renderInline_source.
Qed.

Lemma renderLines_source (lines : list jsstring) (k : nat) :
  forallb (fun l => negb (isRule l)) lines = true ->
  map elementSource (renderLines lines k) = lines.
Proof.
  revert k. induction lines as [|l lines IH]; intros k; [reflexivity|].
  cbn [forallb renderLines map]. intros Hall.
  apply andb_prop in Hall as [Hl Hall]. apply negb_true_iff in Hl.
  rewrite (renderLine_source k l Hl), (IH _ Hall). reflexivity.
Qed.

(** A rule starts with a rule character, which is not a hash. *)
Lemma rule_is_no_heading (line p : jsstring) :
  isRule line = true -> hd_error p = Some 35%N -> startsWith line p = false.
Proof.
  unfold isRule. intros Hr Hp. apply andb_prop in Hr as [Hlen Hall].
  destruct line as [|c line]; [discriminate|].
  destruct p as [|a p]; [discriminate|]. injection Hp as ->.
  cbn [forallb] in Hall. apply andb_prop in Hall as [Hc _].
  cbn [startsWith]. unfold unit_eqb.
  destruct (N.eqb_spec 35 c) as [<-|_]; [discriminate|reflexivity].
Qed.

End MarkdownProperties.

(** X12.  [renderMarkdown] returns [null] only for the empty text;
    otherwise it returns one element per line of the text (one more
    than the text has newlines), with the keys 0, 1, 2, ... in order. *)
Theorem markdown_one_element_per_line (t : jsstring) :
  (Markdown.renderMarkdown t = None <-> t = []) /\
  forall es,
    Markdown.renderMarkdown t = Some es ->
    length es = S (length (List.filter (N.eqb 10) t)) /\
    map Markdown.elementKey es = seq 0 (length es).
Proof.
  split.
  - destruct t; simpl; split; congruence.
  - intros es. destruct t as [|c t']; [discriminate|].
    unfold Markdown.renderMarkdown. intros Hes.
    assert (E : es = Markdown.renderLines (Markdown.splitLines (c :: t')) 0)
      by congruence.
    rewrite E, renderLines_length. split.
    + apply splitLines_length.
    + apply renderLines_keys.
Qed.

Lemma markdown_one_element_per_line_witness :
  length (Markdown.renderLines (Markdown.splitLines (js "## Plan" ++ nl ++ js "---")) 0) =
  2%nat.
Proof.
  pose proof (proj2 (markdown_one_element_per_line (js "## Plan" ++ nl ++ js "---"))
                _ eq_refl) as [Hlen _].
  exact Hlen.
Defined.

(** X13.  Markdown rendering loses no text of a message without rule
    lines: reading the elements back (a heading with its hashes, inline
    parts with their stars) and joining them with newlines gives the
    text that was rendered. *)
Theorem markdown_keeps_text (t : jsstring) :
  t <> [] ->
  forallb (fun l => negb (Markdown.isRule l)) (Markdown.splitLines t) = true ->
  exists es,
    Markdown.renderMarkdown t = Some es /\
    join nl (map elementSource es) = t.
Proof.
  intros Hne Hrules. destruct t as [|c t']; [congruence|].
  eexists. split; [reflexivity|].
  rewrite (renderLines_source _ 0 Hrules). apply splitLines_join.
Qed.

Lemma markdown_keeps_text_witness :
  exists es,
    Markdown.renderMarkdown (js "## Plan" ++ nl ++ js "Hold **Hill 402**.") =
    Some es /\
    join nl (map elementSource es) = js "## Plan" ++ nl ++ js "Hold **Hill 402**.".
Proof.
  apply (markdown_keeps_text (js "## Plan" ++ nl ++ js "Hold **Hill 402**.")).
  - vm_compute. discriminate.
  - vm_compute. reflexivity.
Defined.

(** X14.  A line becomes a horizontal rule exactly when it consists of
    three or more characters from the set hyphen, light horizontal,
    double horizontal and of nothing else; the two heading tests that
    come first never take such a line. *)
Theorem rule_lines_become_rules (k : nat) (line : jsstring) :
  Markdown.renderLine k line = Markdown.Hr k <->
  (3 <= length line)%nat /\ forallb Markdown.isRuleUnit line = true.
Proof.
  unfold Markdown.renderLine. split.
  - destruct (startsWith line (js "## ")); [discriminate|].
    destruct (startsWith line (js "### ")); [discriminate|].
    destruct (Markdown.isRule line) eqn:E; [|discriminate].
    intros _. unfold Markdown.isRule in E. apply andb_prop in E as [Hlen Hall].
    split; [apply Nat.leb_le; exact Hlen|exact Hall].
  - intros [Hlen Hall].
    assert (E : Markdown.isRule line = true).
    { unfold Markdown.isRule. rewrite Hall, andb_true_r.
      apply Nat.leb_le. exact Hlen. }
    rewrite (rule_is_no_heading line (js "## ") E eq_refl).
    rewrite (rule_is_no_heading line (js "### ") E eq_refl).
    rewrite E. reflexivity.
Qed.

(** ** [handleDeleteAll] *)

(** X15.  [handleDeleteAll] empties the conversation only when the
    user confirmed and the server reported success; then the messages
    are just the reset notice, the input and the loaded-file name are
    cleared and one health check is made.  In every other case
    (declined, refused, unreachable) the history, the input and the
    loaded-file name are kept, no health check is made, and unless the
    user declined exactly one error message is appended. *)
Theorem delete_all_clears_only_on_success (B : backend) (confirmed : bool)
        (answer : fetched deleteData) (w : world) :
  let succeeded :=
    confirmed &&
    match answer with
    | Parsed ok data => ok && d_success data
    | _ => false
    end in
  let w' := (handleDeleteAll B confirmed answer w).1 in
  (handleDeleteAll B confirmed answer w).2 =
  (if confirmed then [PostDeleteAll] else []) /\
  if succeeded then
    messages (st w') = [resetComplete] /\
    inputValue (st w') = [] /\
    uploadedFile (st w') = None /\
    trace w' = trace w ++ [GetHealth]
  else
    (exists tail,
        messages (st w') = messages (st w) ++ tail /\
        if confirmed
        then exists m, tail = [m] /\ msg_role m = System /\ isError m = Some true
        else tail = []) /\
    inputValue (st w') = inputValue (st w) /\
    uploadedFile (st w') = uploadedFile (st w) /\
    trace w' = trace w.
Proof.
  unfold handleDeleteAll.
  destruct confirmed; cbn [andb].
  - destruct answer as [|ok|ok data]; cbn [fst snd].
    + split; [reflexivity|]. split; [|repeat split].
      eexists. split; [reflexivity|]. eexists. repeat split.
    + split; [reflexivity|]. split; [|repeat split].
      eexists. split; [reflexivity|]. eexists. repeat split.
    + destruct (ok && d_success data); cbn [fst snd].
      * split; [reflexivity|].
        rewrite checkHealth_messages, checkHealth_trace.
        destruct (checkHealth_frame B
                    (onMessages (fun _ => [resetComplete])
                       (setUploadedFile None
                          (setInputValue [] (onMessages (fun _ => []) w)))))
          as (Hi & Hu & _).
        rewrite Hi, Hu. repeat split.
      * split; [reflexivity|]. split; [|repeat split].
        eexists. split; [reflexivity|]. eexists. repeat split.
  - cbn [fst snd]. split; [reflexivity|]. split; [|repeat split].
    exists []. split; [symmetry; apply app_nil_r|reflexivity].
Qed.

(** ** [handleDoctrineUpload] *)

Section DoctrineUpload.

Variable H : host.
Variable B : backend.
Variable answers : nat -> file -> attempted.

Local Open Scope nat_scope.

Lemma outcomes_cons (i : nat) (f : file) (files : list file) :
  outcomes answers i (f :: files) =
  doctrineResult f (answers i f) :: outcomes answers (S i) files.
Proof.
  unfold outcomes. rewrite imap_cons, Nat.add_0_r. f_equal.
  apply imap_ext. intros j x _. cbn [compose]. unfold compose.
  rewrite Nat.add_succ_r. reflexivity.
Qed.

Lemma doctrineEach_spec (i : nat) (files : list file) (s f : nat)
      (rs : list uploadResult) :
  doctrineEach answers i files s f rs =
  (s + length (List.filter isIndexed (outcomes answers i files)),
   f + length (List.filter (fun r => negb (isIndexed r)) (outcomes answers i files)),
   rs ++ outcomes answers i files).
Proof.
  revert i s f rs. induction files as [|x files IH]; intros i s f rs.
  - cbn. rewrite !Nat.add_0_r, app_nil_r. reflexivity.
  - cbn [doctrineEach]. rewrite outcomes_cons. cbn [List.filter].
    destruct (isIndexed (doctrineResult x (answers i x))); cbn [negb length];
      rewrite IH, <- app_assoc; cbn [app]; rewrite Nat.add_succ_comm; reflexivity.
Qed.

Lemma outcomes_length (i : nat) (files : list file) :
  length (outcomes answers i files) = length files.
Proof. apply length_imap. Qed.

Lemma filter_split_length (rs : list uploadResult) :
  length (List.filter isIndexed rs) +
  length (List.filter (fun r => negb (isIndexed r)) rs) = length rs.
Proof.
  induction rs as [|r rs IH]; [reflexivity|]. cbn [List.filter].
  destruct (isIndexed r); cbn [negb length]; lia.
Qed.

Lemma occursIn_concat (x : jsstring) (xs : list jsstring) :
  In x xs -> occursIn x (concat xs).
Proof.
  induction xs as [|y ys IH]; intros Hin; [destruct Hin|].
  cbn [concat]. destruct Hin as [->|Hin].
  - apply occursIn_head.
  - apply occursIn_app_r, IH, Hin.
Qed.

End DoctrineUpload.

(** The shape of the world after a knowledge-base upload. *)
Lemma handleDoctrineUpload_shape (H : host) (B : backend)
        (answers : nat -> file -> attempted) (files : list file) (w : world) :
  let results := outcomes answers 0 files in
  let successCount := length (List.filter isIndexed results) in
  let failCount := length (List.filter (fun r => negb (isIndexed r)) results) in
  let r := handleDoctrineUpload H B answers files w in
  files <> [] ->
  (successCount + failCount = length files)%nat /\
  last (messages (st r.1)) =
  Some (systemMessage (doctrineSummaryText H successCount failCount results)
                      (Nat.eqb failCount (length files))) /\
  r.2 = map PostUploadDoctrine files /\
  isUploading (st r.1) = false /\
  fileInputValue r.1 = [].
Proof.
  intros results successCount failCount r Hne.
  assert (Hsum : (successCount + failCount = length files)%nat).
  { subst successCount failCount results.
    rewrite filter_split_length. apply outcomes_length. }
  split; [exact Hsum|].
  subst r. unfold handleDoctrineUpload.
  destruct files as [|x files]; [congruence|].
  rewrite doctrineEach_spec. cbv beta iota zeta. cbn [Nat.add fst snd].
  match goal with
  | |- context [checkHealth B ?v] =>
      destruct (checkHealth_frame B v) as (_ & _ & Hup & _)
  end.
  cbn [clearFileInput st fileInputValue].
  rewrite checkHealth_messages, Hup.
  cbn [setIsUploading appendMessage filterMessages onMessages onState st
       messages isUploading].
  split; [apply last_snoc|]. repeat split.
Qed.

(** X16.  A knowledge-base upload sends one request per selected file,
    in the order of the selection, and ends with a summary as the last
    message: its two counts are the numbers of files that were indexed
    and that failed, they add up to the number of files, the entries
    are the outcomes in the order of the selection, and the summary is
    flagged as an error only when every file failed.  Afterwards
    [isUploading] is false and the file input is cleared. *)
Theorem doctrine_upload_summary (H : host) (B : backend)
        (answers : nat -> file -> attempted) (files : list file) (w : world) :
  let results := outcomes answers 0 files in
  let successCount := length (List.filter isIndexed results) in
  let failCount := length (List.filter (fun r => negb (isIndexed r)) results) in
  let r := handleDoctrineUpload H B answers files w in
  files <> [] ->
  (successCount + failCount = length files)%nat /\
  last (messages (st r.1)) =
  Some (systemMessage (doctrineSummaryText H successCount failCount results)
                      (Nat.eqb failCount (length files))) /\
  r.2 = map PostUploadDoctrine files /\
  isUploading (st r.1) = false /\
  fileInputValue r.1 = [].
Proof. exact (handleDoctrineUpload_shape H B answers files w). Qed.

Lemma doctrine_upload_summary_witness :
  (handleDoctrineUpload Engine.engine offline firstOnly
     [File (js "fm3-90.pdf"); File (js "atp2-01.pdf")] initialWorld).2 =
  [PostUploadDoctrine (File (js "fm3-90.pdf"));
   PostUploadDoctrine (File (js "atp2-01.pdf"))].
Proof.
  apply (doctrine_upload_summary Engine.engine offline firstOnly
           [File (js "fm3-90.pdf"); File (js "atp2-01.pdf")] initialWorld).
  discriminate.
Defined.

(** X17.  Every file of a knowledge-base upload that failed is named
    in the summary together with its error: the summary text contains
    the cross mark, the file's name and, on the next line, the error
    of that file. *)
Theorem doctrine_failures_are_listed (H : host) (B : backend)
        (answers : nat -> file -> attempted) (files : list file) (w : world)
        (i : nat) (f : file) (e : nullable jsstring) :
  files !! i = Some f ->
  doctrineResult f (answers i f) = Failed (name f) e ->
  exists m,
    last (messages (st (handleDoctrineUpload H B answers files w).1)) = Some m /\
    includes (text m)
             (js "✗ " ++ name f ++ nl ++ js "  Error: " ++ showField e ++ nl)
    = true.
Proof.
  intros Hi Hf.
  assert (Hne : files <> []) by (intros ->; discriminate).
  destruct (handleDoctrineUpload_shape H B answers files w Hne) as (_ & Hlast & _).
  eexists. split; [exact Hlast|].
  apply includes_occurs. unfold systemMessage, text, doctrineSummaryText.
  do 5 apply occursIn_app_r. apply occursIn_app_l.
  assert (Hin : In (resultBlock H (Failed (name f) e))
                   (map (resultBlock H) (outcomes answers 0 files))).
  { apply in_map. rewrite <- Hf. unfold outcomes.
    apply list_elem_of_In, list_elem_of_lookup. exists i.
    rewrite list_lookup_imap, Hi. reflexivity. }
  apply occursIn_concat in Hin. destruct Hin as (pre & post & Hc).
  exists pre, (nl ++ post). rewrite Hc. cbn [resultBlock].
  rewrite <- !app_assoc. reflexivity.
Qed.

Lemma doctrine_failures_are_listed_witness :
  exists m,
    last (messages (st (handleDoctrineUpload Engine.engine offline firstOnly
                          [File (js "fm3-90.pdf"); File (js "atp2-01.pdf")]
                          initialWorld).1)) = Some m /\
    includes (text m)
             (js "✗ " ++ js "atp2-01.pdf" ++ nl ++ js "  Error: " ++
              js "Failed to fetch" ++ nl) = true.
Proof.
  apply (doctrine_failures_are_listed Engine.engine offline firstOnly
           [File (js "fm3-90.pdf"); File (js "atp2-01.pdf")] initialWorld
           1 (File (js "atp2-01.pdf")) (Value (js "Failed to fetch"))).
  - reflexivity.
  - reflexivity.
Defined.

(** ** [handleKeyDown] *)

(** X18.  A key press changes the component only when the key is Enter,
    Shift is not held and the input is not blank; and the default
    action of the key is prevented exactly for Enter without Shift,
    also when the input is blank and nothing is sent. *)
Theorem key_press_sends_only_on_plain_enter (H : host) (B : backend)
        (e : keyEvent) (w : world) :
  ((handleKeyDown H B e w).1 <> w ->
   key_name e = js "Enter" /\ shiftKey e = false /\
   forallb isTrimmed (inputValue (st w)) = false) /\
  ((handleKeyDown H B e w).2 = true <->
   key_name e = js "Enter" /\ shiftKey e = false).
Proof.
  unfold handleKeyDown.
  destruct (decide (key_name e = js "Enter")) as [Hk|Hk].
  - rewrite bool_decide_eq_true_2 by exact Hk.
    destruct (shiftKey e); cbn [andb negb fst snd].
    + split; [congruence|]. split; [discriminate|]. intros [_ Hs]. discriminate.
    + split; [|tauto]. intros Hchg. repeat split; [exact Hk|].
      destruct (forallb isTrimmed (inputValue (st w))) eqn:Eb; [|reflexivity].
      destruct Hchg. unfold handleSendMessage.
      rewrite bool_decide_eq_true_2; [reflexivity|].
      apply trim_nil_iff. exact Eb.
  - rewrite bool_decide_eq_false_2 by exact Hk. cbn [andb fst snd].
    split; [congruence|]. split; [discriminate|]. intros [Hk' _]. congruence.
Qed.

Lemma key_press_sends_only_on_plain_enter_witness :
  key_name (KeyEvent (js "Enter") false) = js "Enter" /\
  shiftKey (KeyEvent (js "Enter") false) = false /\
  forallb isTrimmed (inputValue (st (typing decimalExample initialWorld))) = false.
Proof.
  apply (proj1 (key_press_sends_only_on_plain_enter Engine.engine offline
                  (KeyEvent (js "Enter") false)
                  (typing decimalExample initialWorld))).
  vm_compute. discriminate.
Defined.

(** ** More on the handlers *)

(** X19.  A wind value that is present is always printed with a scale
    number between 0 and 12 behind it; the word [null] that the scale
    returns for a missing value never reaches the text. *)
Theorem wind_text_has_scale (H : host) (k : number) :
  exists n,
    (0 <= n <= 12)%Z /\
    windStr H (Some k) =
    numToString H k ++ js " km/h (Bft " ++ numToString H (ofZ n) ++ js ")".
Proof.
  destruct (kmhToBeaufort_range k) as (n & Hn & Hrange).
  exists n. split; [exact Hrange|].
  unfold windStr. rewrite Hn. reflexivity.
Qed.

(** X20.  [handleRestart] does nothing when the user declines; when
    the user confirms it empties the conversation and the input and
    makes one health check, and it keeps the loaded-file name, the
    scenario and the two busy flags as they were. *)
Theorem restart_clears_conversation_only (B : backend) (confirmed : bool)
        (w : world) :
  let w' := handleRestart B confirmed w in
  (confirmed = false -> w' = w) /\
  (confirmed = true ->
   messages (st w') = [] /\
   inputValue (st w') = [] /\
   trace w' = trace w ++ [GetHealth] /\
   uploadedFile (st w') = uploadedFile (st w) /\
   scenario (st w') = scenario (st w) /\
   isUploading (st w') = isUploading (st w) /\
   isThinking (st w') = isThinking (st w)).
Proof.
  unfold handleRestart. split; intros ->; [reflexivity|].
  rewrite checkHealth_messages, checkHealth_trace.
  destruct (checkHealth_frame B (setInputValue [] (onMessages (fun _ => []) w)))
    as (Hi & Hu & Hb & Ht & _ & Hs & _).
  rewrite Hi, Hu, Hb, Ht, Hs. repeat split.
Qed.

Lemma restart_clears_conversation_only_witness :
  handleRestart offline false (typing decimalExample initialWorld) =
  typing decimalExample initialWorld.
Proof.
  apply (proj1 (restart_clears_conversation_only offline false
                  (typing decimalExample initialWorld))).
  reflexivity.
Defined.

(** X21.  The loaded-file name follows the server's word, not the
    return value: [uploadDocument] sets it to the file's name exactly
    when the parsed answer reports success (also when the function then
    returns false because the answer carries no details), and leaves it
    alone otherwise. *)
Theorem upload_sets_loaded_file_on_reported_success (H : host) (B : backend)
        (f : file) (showCompletion : bool) (w : world) :
  let reported :=
    match upload_endpoint B (length (trace w)) f with
    | Parsed ok data => ok && u_success data
    | _ => false
    end in
  uploadedFile (st (uploadDocument H B f showCompletion w).1) =
  if reported then Some (name f) else uploadedFile (st w).
Proof.
  unfold uploadDocument, uploadCatch.
  destruct showCompletion;
    cbn [setIsUploading appendMessage onMessages onState trace];
    destruct (upload_endpoint B _ f) as [|ok|ok data];
    try (destruct (ok && u_success data));
    try (destruct (u_details data) as [d|]);
    cbn [fst snd]; unfold checkHealth;
    try (destruct (health_endpoint B _));
    reflexivity.
Qed.

(** X22.  A non-blank message is sent to [/analyze_coordinates] when
    the detector fires and to [/chat] otherwise; either way the request
    carries the input as typed (not trimmed), and the analysis request
    carries the current scenario. *)
Theorem send_message_routing (H : host) (B : backend) (w : world) :
  let input := inputValue (st w) in
  trim input <> [] ->
  trace (handleSendMessage H B w) =
  trace w ++
  [if hasCoordinates input
   then PostAnalyzeCoordinates input (scenario (st w))
   else PostChat input].
Proof.
  intros input Hne. unfold handleSendMessage. fold input.
  rewrite bool_decide_eq_false_2 by exact Hne.
  destruct (hasCoordinates input); simpl.
  - rewrite onAnalyzeAnswer_trace. reflexivity.
  - rewrite onChatAnswer_trace. reflexivity.
Qed.

Lemma send_message_routing_witness :
  let w := typing (js " at 48.8566, 2.3522 ") initialWorld in
  trace (handleSendMessage Engine.engine offline w) =
  trace w ++
  [if hasCoordinates (inputValue (st w))
   then PostAnalyzeCoordinates (inputValue (st w)) (scenario (st w))
   else PostChat (inputValue (st w))].
Proof.
  intros w.
  apply (send_message_routing Engine.engine offline w).
  vm_compute. discriminate.
Defined.
